(** * obs: a session-confined file server

    A shallow embedding of the HTTP file server [obs] (package [main]) and a
    verification of its session store, its path confinement check and its
    directory navigation.

    Conventions of the model.
    - Go strings are byte strings: [string] of the Standard Library.
      [strings.ToLower] is modelled on the ASCII letters and leaves every
      other byte as it is.
    - The build modelled is the Unix one ([filepath.Separator] is [/], there
      are no volume names); [runtime.GOOS] is not ["windows"].
    - [time.Time] is a number of nanoseconds ([Z]) counted from the zero
      [time.Time], so that the zero value of [Session] has [LastAccess = 0].
    - The session map is a [gmap string Session]; reading a missing key with
      the Go index expression yields the zero value, stdpp's total lookup
      [!!!] at the [Inhabited] instance of [Session].
    - The operating system is an interface ([OS]): every theorem quantified
      over it holds whatever the file system answers.  [MemFS] is one
      executable instance, used to run the handlers on concrete inputs.
    - Lines printed to the standard output or to the log are left out. *)

From Stdlib Require Import ZArith Ascii DecimalString.
From Stdlib.Strings Require Import Byte.
From stdpp Require Import gmap strings list fin_maps.

Local Open Scope Z_scope.

(** String concatenation unfolds on a string that starts with a byte. *)
#[local] Arguments String.append !_ _ : simpl nomatch.

(** ** The Go library functions the server calls *)

(** [os.IsPathSeparator] on Unix. *)
Definition IsPathSeparator (c : ascii) : bool := Ascii.eqb c "/"%char.

(** Package [strings]. *)
Module strings.

(** [strings.HasPrefix]: [len(s) >= len(prefix) && s[:len(prefix)] == prefix]. *)
Fixpoint HasPrefix (s prefix : string) {struct prefix} : bool :=
  match prefix with
  | EmptyString => true
  | String p prefix' =>
      match s with
      | EmptyString => false
      | String c s' => Ascii.eqb c p && HasPrefix s' prefix'
      end
  end.

(** Lower-casing of one byte: [A]..[Z] become [a]..[z]. *)
Definition lowerByte (c : ascii) : ascii :=
  let n := nat_of_ascii c in
  if ((65 <=? n) && (n <=? 90))%nat then ascii_of_nat (n + 32) else c.

(** [strings.ToLower], on the bytes of the string. *)
Fixpoint ToLower (s : string) : string :=
  match s with
  | EmptyString => EmptyString
  | String c s' => String (lowerByte c) (ToLower s')
  end.

(** Membership of a byte in a cutset. *)
Fixpoint inCutset (cutset : string) (c : ascii) : bool :=
  match cutset with
  | EmptyString => false
  | String d cutset' => Ascii.eqb c d || inCutset cutset' c
  end.

(** [strings.TrimLeft]. *)
Fixpoint TrimLeft (s cutset : string) : string :=
  match s with
  | EmptyString => EmptyString
  | String c s' => if inCutset cutset c then TrimLeft s' cutset else s
  end.

(** [strings.TrimRight]. *)
Fixpoint TrimRight (s cutset : string) : string :=
  match s with
  | EmptyString => EmptyString
  | String c s' =>
      match TrimRight s' cutset with
      | EmptyString => if inCutset cutset c then EmptyString else String c EmptyString
      | t => String c t
      end
  end.

(** [strings.Trim]: all leading and trailing bytes of [cutset] removed. *)
Definition Trim (s cutset : string) : string :=
  TrimRight (TrimLeft s cutset) cutset.

(** [strings.Join]. *)
Fixpoint Join (elems : list string) (sep : string) : string :=
  match elems with
  | [] => EmptyString
  | [e] => e
  | e :: rest => e +:+ sep +:+ Join rest sep
  end.

End strings.

(** Package [path/filepath], Unix flavour.  [Clean] is modelled on the path
    elements: the path is cut at its separators, the elements are processed
    from left to right against the output written so far, and the output is
    joined again. *)
Module filepath.

(** The elements of a path between its separators; [a//b/] has the
    elements [a], the empty one, [b] and the empty one. *)
Fixpoint elements (path : string) : list string :=
  match path with
  | EmptyString => [EmptyString]
  | String c path' =>
      if IsPathSeparator c then EmptyString :: elements path'
      else match elements path' with
           | e :: rest => String c e :: rest
           | [] => [String c EmptyString]
           end
  end.

(** [filepath.IsAbs] on Unix: the path starts with a separator. *)
Definition IsAbs (path : string) : bool := strings.HasPrefix path "/".

(** The loop of [Clean].  [out] holds the elements written so far, last
    one first.  An empty element and [.] are skipped; [..] removes the last
    element written when there is one to remove (one that is not itself a
    leading [..]), is dropped at the top of a rooted path, and is written
    otherwise; any other element is written. *)
Fixpoint cleanLoop (rooted : bool) (out : list string) (elems : list string)
  : list string :=
  match elems with
  | [] => out
  | e :: elems' =>
      if String.eqb e "" then cleanLoop rooted out elems'
      else if String.eqb e "." then cleanLoop rooted out elems'
      else if String.eqb e ".." then
        match out with
        | top :: out' =>
            if String.eqb top ".." then cleanLoop rooted (e :: out) elems'
            else cleanLoop rooted out' elems'
        | [] =>
            if rooted then cleanLoop rooted out elems'
            else cleanLoop rooted (e :: out) elems'
        end
      else cleanLoop rooted (e :: out) elems'
  end.

(** [filepath.Clean]. *)
Definition Clean (path : string) : string :=
  if String.eqb path "" then "."
  else
    let rooted := IsAbs path in
    let out := rev (cleanLoop rooted [] (elements path)) in
    if rooted then "/" +:+ strings.Join out "/"
    else match out with
         | [] => "."
         | _ => strings.Join out "/"
         end.

(** [filepath.Join]: the leading empty elements are dropped, the rest is
    joined with the separator and cleaned; no non-empty element gives the
    empty string. *)
Fixpoint Join (elem : list string) : string :=
  match elem with
  | [] => EmptyString
  | e :: rest =>
      if String.eqb e "" then Join rest
      else Clean (strings.Join elem "/")
  end.

(** Does the path hold a separator? *)
Fixpoint hasSeparator (path : string) : bool :=
  match path with
  | EmptyString => false
  | String c path' => IsPathSeparator c || hasSeparator path'
  end.

(** [path[:i+1]] for [i] the index of the last separator of [path]; the
    empty string when there is none. *)
Fixpoint uptoLastSeparator (path : string) : string :=
  match path with
  | EmptyString => EmptyString
  | String c path' =>
      if hasSeparator path' then String c (uptoLastSeparator path')
      else if IsPathSeparator c then String c EmptyString
      else EmptyString
  end.

(** [filepath.Dir]: all but the last element of the path, cleaned. *)
Definition Dir (path : string) : string := Clean (uptoLastSeparator path).

End filepath.

(** The cutset of the two handlers that trim the [dir] parameter: slash,
    backslash, space and the double quote (byte 34). *)
Definition dirCutset : string := "/\ " +:+ String (ascii_of_nat 34) EmptyString.

(** The line feed that [http.Error] and [fmt.Fprintln] append. *)
Definition newline : string := String (ascii_of_nat 10) EmptyString.

(** Package [encoding/hex]. *)
Module hex.

Definition digit (n : N) : ascii :=
  match n with
  | 0%N => "0" | 1%N => "1" | 2%N => "2" | 3%N => "3" | 4%N => "4"
  | 5%N => "5" | 6%N => "6" | 7%N => "7" | 8%N => "8" | 9%N => "9"
  | 10%N => "a" | 11%N => "b" | 12%N => "c" | 13%N => "d" | 14%N => "e"
  | _ => "f"
  end%char.

(** [hex.EncodeToString]: two lower-case digits per byte. *)
Fixpoint EncodeToString (src : list byte) : string :=
  match src with
  | [] => EmptyString
  | b :: src' =>
      String (digit (N.shiftr (Byte.to_N b) 4))
        (String (digit (N.land (Byte.to_N b) 15)) (EncodeToString src'))
  end.

End hex.

(** Package [time]: instants and durations in nanoseconds. *)
Module time.

Definition Time : Type := Z.
Definition Duration : Type := Z.

Definition Nanosecond : Duration := 1.
Definition Second : Duration := 1000000000 * Nanosecond.
Definition Minute : Duration := 60 * Second.

Definition minDuration : Duration := - 2 ^ 63.
Definition maxDuration : Duration := 2 ^ 63 - 1.

(** [t.Sub(u)]: the difference, kept within the range of a [Duration]
    (a 64-bit integer) by saturation. *)
Definition Sub (t u : Time) : Duration :=
  Z.max minDuration (Z.min maxDuration (t - u)).

(** [time.Since(t)] when the clock reads [now]. *)
Definition Since (now t : Time) : Duration := Sub now t.

End time.

(** Decimal rendering of an integer, the [%d] verb of [fmt]. *)
Definition formatInt (n : Z) : string := NilEmpty.string_of_int (Z.to_int n).

(** ** Data model *)

(** [type Session struct]. *)
Record Session : Type := mkSession {
  CurrentDir : string;
  LastAccess : time.Time;
}.

(** The zero value of [Session], what indexing the map at a missing key
    returns. *)
Definition zeroSession : Session :=
  {| CurrentDir := EmptyString; LastAccess := 0 |}.

#[global] Instance Session_inhabited : Inhabited Session := populate zeroSession.

#[global] Instance Session_eq_dec : EqDecision Session.
Proof. solve_decision. Defined.

(** Errors of the operating system, as far as the handlers tell them apart
    ([os.IsNotExist]) and as the in-memory instance raises them. *)
Inductive OSError : Type :=
  | ENOENT | EEXIST | EACCES | ENOTDIR | EISDIR | ENOTEMPTY | EIO.

#[global] Instance OSError_eq_dec : EqDecision OSError.
Proof. solve_decision. Defined.

(** [os.IsNotExist]. *)
Definition IsNotExist (err : OSError) : bool :=
  match err with ENOENT => true | _ => false end.

(** [os.FileInfo], the two fields the handlers read. *)
Record FileInfo : Type := mkFileInfo {
  IsDir : bool;
  Size : Z;
}.

(** An opened file: what [file.Stat] answers and the bytes [io.Copy] reads. *)
Record File : Type := mkFile {
  fileStat : FileInfo + OSError;
  fileBytes : string;
}.

(** The operating system behind the server: file system, working directory
    of the process, clock and random source.  The calls that only read
    return a result; the others also return the next state. *)
Class OS (W : Type) : Type := {
  os_Getwd : W → string + OSError;
  os_Stat : W → string → FileInfo + OSError;
  os_Open : W → string → File + OSError;
  os_Chdir : W → string → option OSError * W;
  os_Mkdir : W → string → Z → option OSError * W;
  os_Remove : W → string → option OSError * W;
  os_Create : W → string → option OSError * W;
  io_Copy : W → string → string → option OSError * W;
  exec_CombinedOutput : W → string → list string → (string * option string) * W;
  time_Now : W → time.Time * W;
  rand_Read : W → nat → list byte * W;
}.

(** The calls to the operating system that touch the file system or the
    process, logged in the order they are made. *)
Inductive Call : Type :=
  | CallGetwd
  | CallStat (name : string)
  | CallOpen (name : string)
  | CallChdir (dir : string)
  | CallMkdir (name : string) (perm : Z)
  | CallRemove (name : string)
  | CallCreate (name : string)
  | CallCopy (name : string)
  | CallExec (name : string) (args : list string).

#[global] Instance Call_eq_dec : EqDecision Call.
Proof. solve_decision. Defined.

(** Does the call change the file system? *)
Definition mutatesFiles (c : Call) : bool :=
  match c with
  | CallMkdir _ _ | CallRemove _ | CallCreate _ | CallCopy _ => true
  | _ => false
  end.

(** [http.Cookie], the fields the server sets. *)
Record Cookie : Type := mkCookie {
  Name : string;
  Value : string;
  HttpOnly : bool;
  Path : string;
}.

(** A part of a multipart form holding a file. *)
Record FileHeader : Type := mkFileHeader {
  Filename : string;
  Content : string;
}.

(** [http.Request], as far as the server reads it: the cookies of the
    [Cookie] header, the query parameters of the URL and the multipart form
    ([None] when the body does not parse as one). *)
Record Request : Type := mkRequest {
  URLPath : string;
  Cookies : list (string * string);
  Query : list (string * string);
  MultipartForm : option (list (string * FileHeader));
}.

(** First value under a key of an association list. *)
Fixpoint assoc {A : Type} (key : string) (l : list (string * A)) : option A :=
  match l with
  | [] => None
  | (k, v) :: l' => if String.eqb k key then Some v else assoc key l'
  end.

(** [r.Cookie(name)]: the value of the first cookie of that name, parsed
    anew from the request header at every call; [None] is [ErrNoCookie]. *)
Definition RequestCookie (r : Request) (name : string) : option string :=
  assoc name (Cookies r).

(** [r.URL.Query().Get(key)]: the first value, the empty string if none. *)
Definition QueryGet (r : Request) (key : string) : string :=
  default EmptyString (assoc key (Query r)).

(** What was written to the [http.ResponseWriter]. *)
Record Response : Type := mkResponse {
  StatusCode : Z;
  Body : string;
  Header : list (string * string);
  SetCookie : list Cookie;
}.

Definition StatusOK : Z := 200.
Definition StatusBadRequest : Z := 400.
Definition StatusNotFound : Z := 404.
Definition StatusInternalServerError : Z := 500.

(** [http.Error(w, msg, code)]. *)
Definition httpError (msg : string) (code : Z) : Response :=
  {| StatusCode := code; Body := msg +:+ newline; Header := []; SetCookie := [] |}.

(** A body written with status 200. *)
Definition httpOK (body : string) : Response :=
  {| StatusCode := StatusOK; Body := body; Header := []; SetCookie := [] |}.

(** [http.SetCookie(w, c)], done before the handler writes. *)
Definition withCookie (c : option Cookie) (resp : Response) : Response :=
  match c with
  | None => resp
  | Some c =>
      {| StatusCode := StatusCode resp; Body := Body resp;
         Header := Header resp; SetCookie := c :: SetCookie resp |}
  end.

(** ** The server *)

Section Server.

Context {W : Type} `{!OS W}.

(** The global [originalRoot]: [main] sets it to [filepath.Abs] of the
    folder given on the command line before any request is served, and
    nothing writes it afterwards. *)
Variable originalRoot : string.

(** The state of the process: the map of [sessionStore], the operating
    system, and the log of the calls made to it. *)
Record State : Type := mkState {
  sessions : gmap string Session;
  world : W;
  calls : list Call;
}.

(** Computations of the server. *)
Definition M (A : Type) : Type := State → A * State.

Definition ret {A : Type} (a : A) : M A := fun s => (a, s).

Definition bind {A B : Type} (c : M A) (k : A → M B) : M B :=
  fun s => let '(a, s') := c s in k a s'.

Notation "'let*' x ':=' c 'in' k" := (bind c (fun x => k))
  (at level 10, x pattern, c at level 100, k at level 200).

Definition logged (c : Call) (w : W) (s : State) : State :=
  {| sessions := sessions s; world := w; calls := calls s ++ [c] |}.

Definition unlogged (w : W) (s : State) : State :=
  {| sessions := sessions s; world := w; calls := calls s |}.

(** *** Calls to the operating system *)

Definition Getwd : M (string + OSError) :=
  fun s => (os_Getwd (world s), logged CallGetwd (world s) s).

Definition Stat (name : string) : M (FileInfo + OSError) :=
  fun s => (os_Stat (world s) name, logged (CallStat name) (world s) s).

Definition Open (name : string) : M (File + OSError) :=
  fun s => (os_Open (world s) name, logged (CallOpen name) (world s) s).

Definition Chdir (dir : string) : M (option OSError) :=
  fun s => let '(err, w) := os_Chdir (world s) dir in
           (err, logged (CallChdir dir) w s).

Definition Mkdir (name : string) (perm : Z) : M (option OSError) :=
  fun s => let '(err, w) := os_Mkdir (world s) name perm in
           (err, logged (CallMkdir name perm) w s).

Definition Remove (name : string) : M (option OSError) :=
  fun s => let '(err, w) := os_Remove (world s) name in
           (err, logged (CallRemove name) w s).

Definition Create (name : string) : M (option OSError) :=
  fun s => let '(err, w) := os_Create (world s) name in
           (err, logged (CallCreate name) w s).

(** [io.Copy(out, file)] into the file created at [name]. *)
Definition Copy (name : string) (data : string) : M (option OSError) :=
  fun s => let '(err, w) := io_Copy (world s) name data in
           (err, logged (CallCopy name) w s).

Definition CombinedOutput (name : string) (args : list string)
  : M (string * option string) :=
  fun s => let '(res, w) := exec_CombinedOutput (world s) name args in
           (res, logged (CallExec name args) w s).

Definition Now : M time.Time :=
  fun s => let '(t, w) := time_Now (world s) in (t, unlogged w s).

Definition randRead (n : nat) : M (list byte) :=
  fun s => let '(bytes, w) := rand_Read (world s) n in (bytes, unlogged w s).

(** *** The session map, inside its lock *)

(** [sessionStore.sessions[id]]: the zero value at a missing key. *)
Definition readSession (id : string) : M Session :=
  fun s => (sessions s !!! id, s).

(** [_, exists := sessionStore.sessions[id]]. *)
Definition lookupSession (id : string) : M (option Session) :=
  fun s => (sessions s !! id, s).

(** [sessionStore.sessions[id] = sess]. *)
Definition storeSession (id : string) (sess : Session) : M unit :=
  fun s => (tt, {| sessions := <[id := sess]> (sessions s);
                   world := world s; calls := calls s |}).

(** [delete(sessionStore.sessions, id)]. *)
Definition deleteSession (id : string) : M unit :=
  fun s => (tt, {| sessions := delete id (sessions s);
                   world := world s; calls := calls s |}).

(** *** [filepath.Abs] and the confinement check *)

(** [filepath.Abs]: an absolute path is cleaned; a relative one is joined
    to the working directory; when that cannot be read the result is the
    empty string and the error. *)
Definition Abs (path : string) : M (string * option OSError) :=
  if filepath.IsAbs path then ret (filepath.Clean path, None)
  else
    let* wd := Getwd in
    match wd with
    | inl wd => ret (filepath.Join [wd; path], None)
    | inr err => ret (EmptyString, Some err)
    end.

(** [isPathSafe]: both errors of [Abs] are dropped. *)
Definition isPathSafe (path : string) : M bool :=
  let* (absPath, _) := Abs path in
  let* (absRoot, _) := Abs originalRoot in
  ret (strings.HasPrefix (strings.ToLower absPath) (strings.ToLower absRoot)).

(** *** [withSession] *)

(** [generateSessionID]: sixteen random bytes in hexadecimal. *)
Definition generateSessionID : M string :=
  let* bytes := randRead 16 in
  ret (hex.EncodeToString bytes).

(** The first part of the wrapper: the cookie is read, and a session is
    created (no cookie, or a cookie whose value is not a key of the map)
    or its [LastAccess] is refreshed.  Returns [sessionID.Value] and the
    cookie set on the response, if any.  A cookie parsed from the request
    has its name and value only, so the one set for an unknown token
    carries no attribute. *)
Definition resolveSession (r : Request) : M (string * option Cookie) :=
  match RequestCookie r "session_id" with
  | None =>
      let* id := generateSessionID in
      let sessionID :=
        {| Name := "session_id"; Value := id; HttpOnly := true; Path := "/" |} in
      let* now := Now in
      let* _ := storeSession id {| CurrentDir := originalRoot; LastAccess := now |} in
      ret (id, Some sessionID)
  | Some value =>
      let* found := lookupSession value in
      match found with
      | None =>
          let* newSessionID := generateSessionID in
          let sessionID :=
            {| Name := "session_id"; Value := newSessionID;
               HttpOnly := false; Path := EmptyString |} in
          let* now := Now in
          let* _ := storeSession newSessionID
                      {| CurrentDir := originalRoot; LastAccess := now |} in
          ret (newSessionID, Some sessionID)
      | Some session =>
          let* now := Now in
          let* _ := storeSession value
                      {| CurrentDir := CurrentDir session; LastAccess := now |} in
          ret (value, None)
      end
  end.

Definition Handler : Type := Request → string → M Response.

(** [withSession(fn)], the request served with no other goroutine running
    between its steps. *)
Definition withSession (fn : Handler) (r : Request) : M Response :=
  let* (id, cookie) := resolveSession r in
  let* currentSession := readSession id in
  let* resp := fn r (CurrentDir currentSession) in
  ret (withCookie cookie resp).

(** [withSession(fn)] with the critical sections of other goroutines,
    [others], running after the lock is released at the end of the first
    part and before it is taken again to read the session. *)
Definition withSessionInterleaved (others : M unit) (fn : Handler)
    (r : Request) : M Response :=
  let* (id, cookie) := resolveSession r in
  let* _ := others in
  let* currentSession := readSession id in
  let* resp := fn r (CurrentDir currentSession) in
  ret (withCookie cookie resp).

(** *** [cleanupSessions] *)

(** The condition under which the sweep deletes a session, the clock
    reading [now] when it is visited. *)
Definition expired (now : time.Time) (sess : Session) : Prop :=
  time.Since now (LastAccess sess) > 5 * time.Minute.

#[global] Instance expired_dec now sess : Decision (expired now sess).
Proof. unfold expired. apply _. Defined.

(** One pass of the loop of [cleanupSessions] over the map, inside the
    lock.  The range visits every entry once, in no specified order, and
    [time.Since] reads the clock at each visit: [clock id] is the reading
    made at the entry of key [id]. *)
Definition sweepSessions (clock : string → time.Time)
    (m : gmap string Session) : gmap string Session :=
  filter (fun kv => ¬ expired (clock kv.1) kv.2) m.

Definition cleanupPass (clock : string → time.Time) : M unit :=
  fun s => (tt, {| sessions := sweepSessions clock (sessions s);
                   world := world s; calls := calls s |}).

(** *** The handlers *)

(** [listFiles]. *)
Definition listFiles (r : Request) (currentDir : string) : M Response :=
  let* (output, err) := CombinedOutput "ls" ["-la"; currentDir] in
  match err with
  | Some msg =>
      ret (httpError ("Error executing command: " +:+ msg) StatusInternalServerError)
  | None => ret (httpOK output)
  end.

(** [r.FormFile(key)]: the first file of the form under [key]. *)
Definition FormFile (form : list (string * FileHeader)) (key : string)
  : option FileHeader := assoc key form.

(** [uploadFile]. *)
Definition uploadFile (r : Request) (currentDir : string) : M Response :=
  match MultipartForm r with
  | None => ret (httpError "Error parsing form" StatusBadRequest)
  | Some form =>
      match FormFile form "file" with
      | None => ret (httpError "Error retrieving file" StatusBadRequest)
      | Some handler =>
          let filePath := filepath.Join [currentDir; Filename handler] in
          let* safe := isPathSafe filePath in
          if negb safe then ret (httpError "Invalid path" StatusBadRequest)
          else
            let* err := Create filePath in
            match err with
            | Some _ =>
                ret (httpError "Error creating file" StatusInternalServerError)
            | None =>
                let* err := Copy filePath (Content handler) in
                match err with
                | Some _ =>
                    ret (httpError "Error writing file" StatusInternalServerError)
                | None => ret (httpOK ("File uploaded successfully" +:+ newline))
                end
            end
      end
  end.

(** [downloadFile]. *)
Definition downloadFile (r : Request) (currentDir : string) : M Response :=
  let fileName := QueryGet r "file" in
  let filePath := filepath.Join [currentDir; fileName] in
  let* safe := isPathSafe filePath in
  if negb safe then ret (httpError "Invalid path" StatusBadRequest)
  else
    let* opened := Open filePath in
    match opened with
    | inr _ => ret (httpError "File not found" StatusNotFound)
    | inl file =>
        match fileStat file with
        | inr _ =>
            ret (httpError "Error getting file info" StatusInternalServerError)
        | inl fileInfo =>
            ret {| StatusCode := StatusOK;
                   Body := fileBytes file;
                   Header :=
                     [ ("Content-Disposition", "attachment; filename=" +:+ fileName);
                       ("Content-Length", formatInt (Size fileInfo)) ];
                   SetCookie := [] |}
        end
    end.

(** [deleteFile]. *)
Definition deleteFile (r : Request) (currentDir : string) : M Response :=
  let fileName := QueryGet r "file" in
  let filePath := filepath.Join [currentDir; fileName] in
  let* safe := isPathSafe filePath in
  if negb safe then ret (httpError "Invalid path" StatusBadRequest)
  else
    let* err := Remove filePath in
    match err with
    | Some _ => ret (httpError "Error deleting file" StatusInternalServerError)
    | None => ret (httpOK ("File deleted successfully" +:+ newline))
    end.

(** The [switch] of [changeDirectory] on the trimmed name. *)
Definition targetDirectory (currentDir dirName : string) : string :=
  if String.eqb dirName ".." then filepath.Dir currentDir
  else if String.eqb dirName "root" then originalRoot
  else filepath.Clean (filepath.Join [currentDir; dirName]).

(** The last critical section of [changeDirectory]: the session of the
    cookie's value is assigned. *)
Definition commitDirectory (id newDir : string) : M unit :=
  let* now := Now in
  storeSession id {| CurrentDir := newDir; LastAccess := now |}.

(** [changeDirectory]. *)
Definition changeDirectory (r : Request) (currentDir : string) : M Response :=
  let dirName := strings.Trim (QueryGet r "dir") dirCutset in
  if String.eqb dirName EmptyString
  then ret (httpError "Invalid directory name" StatusBadRequest)
  else
    let newDir := targetDirectory currentDir dirName in
    let* info := Stat newDir in
    match info with
    | inr err =>
        if IsNotExist err
        then ret (httpError "Directory not found" StatusNotFound)
        else ret (httpError "Error accessing directory" StatusInternalServerError)
    | inl info =>
        if negb (IsDir info) then ret (httpError "Not a directory" StatusBadRequest)
        else
          let* safe := isPathSafe newDir in
          if negb safe then ret (httpError "Invalid path" StatusBadRequest)
          else
            let* err := Chdir newDir in
            match err with
            | Some _ =>
                ret (httpError "Error changing directory" StatusInternalServerError)
            | None =>
                match RequestCookie r "session_id" with
                | None => ret (httpError "Session error" StatusInternalServerError)
                | Some id =>
                    let* _ := commitDirectory id newDir in
                    ret (httpOK ("Directory changed to " +:+ newDir))
                end
            end
    end.

(** [createDirectory]. *)
Definition createDirectory (r : Request) (currentDir : string) : M Response :=
  let dirName := strings.Trim (QueryGet r "dir") dirCutset in
  if String.eqb dirName EmptyString
  then ret (httpError "Invalid directory name" StatusBadRequest)
  else
    let dirPath := filepath.Clean (filepath.Join [currentDir; dirName]) in
    let* safe := isPathSafe dirPath in
    if negb safe then ret (httpError "Invalid path" StatusBadRequest)
    else
      let* err := Mkdir dirPath 493 in
      match err with
      | Some _ =>
          ret (httpError "Error creating directory" StatusInternalServerError)
      | None => ret (httpOK ("Directory created" +:+ newline))
      end.

(** [handleQuit]. *)
Definition handleQuit (r : Request) (currentDir : string) : M Response :=
  let* _ :=
    match RequestCookie r "session_id" with
    | Some id => deleteSession id
    | None => ret tt
    end in
  ret (httpOK ("Connection closed" +:+ newline)).

(** The routes registered by [main]. *)
Definition route (path : string) : option Handler :=
  if String.eqb path "/files" then Some listFiles
  else if String.eqb path "/upload" then Some uploadFile
  else if String.eqb path "/download" then Some downloadFile
  else if String.eqb path "/delete" then Some deleteFile
  else if String.eqb path "/cd" then Some changeDirectory
  else if String.eqb path "/mkdir" then Some createDirectory
  else if String.eqb path "/quit" then Some handleQuit
  else None.

(** One request served from start to end; a path with no route is
    answered by the multiplexer, outside [withSession]. *)
Definition serve (r : Request) : M Response :=
  match route (URLPath r) with
  | Some fn => withSession fn r
  | None => ret (httpError "404 page not found" StatusNotFound)
  end.

(** The state when [main] starts serving. *)
Definition initialState (w : W) : State :=
  {| sessions := ∅; world := w; calls := [] |}.

(** What happens to the process, one step at a time: a request is served,
    the sweep makes a pass, or the world changes under the server (the
    clock, other processes working on the file system). *)
Inductive step : State → State → Prop :=
  | step_serve (r : Request) (s : State) :
      step s (serve r s).2
  | step_sweep (clock : string → time.Time) (s : State) :
      step s (cleanupPass clock s).2
  | step_world (w : W) (s : State) :
      step s (unlogged w s).

(** The states the server reaches from a start in [w]. *)
Inductive reachable (w : W) : State → Prop :=
  | reachable_initial : reachable w (initialState w)
  | reachable_step (s s' : State) :
      reachable w s → step s s' → reachable w s'.

End Server.

Arguments State W : clear implicits.
Arguments M W A : clear implicits.
Arguments Handler W : clear implicits.

(** ** An in-memory operating system

    One instance of [OS]: a tree of directories and regular files keyed by
    cleaned absolute path, a working directory, a clock and a supply of
    random bytes.  There are no symbolic links; a directory is writable or
    not, which decides whether entries may be added to it or removed from
    it. *)
Module MemFS.

Inductive Node : Type :=
  | Directory (writable : bool)
  | Regular (content : string).

Record T : Type := mk {
  nodes : gmap string Node;
  cwd : string;
  clock : time.Time;
  random : list (list byte);
}.

(** The key of a name: cleaned, and taken from the working directory when
    relative. *)
Definition resolve (fs : T) (name : string) : string :=
  if filepath.IsAbs name then filepath.Clean name
  else filepath.Join [cwd fs; name].

Definition withNodes (fs : T) (m : gmap string Node) : T :=
  {| nodes := m; cwd := cwd fs; clock := clock fs; random := random fs |}.

(** May an entry be added to or removed from the directory holding [p]? *)
Definition parentError (fs : T) (p : string) : option OSError :=
  match nodes fs !! filepath.Dir p with
  | Some (Directory true) => None
  | Some (Directory false) => Some EACCES
  | Some (Regular _) => Some ENOTDIR
  | None => Some ENOENT
  end.

(** The keys directly below [p]. *)
Definition children (fs : T) (p : string) : list string :=
  filter (fun k => k ≠ p ∧ filepath.Dir k = p) (map_to_list (nodes fs)).*1.

Definition info (n : Node) : FileInfo :=
  match n with
  | Directory _ => {| IsDir := true; Size := 4096 |}
  | Regular c => {| IsDir := false; Size := Z.of_nat (String.length c) |}
  end.

Definition getwd (fs : T) : string + OSError := inl (cwd fs).

Definition stat (fs : T) (name : string) : FileInfo + OSError :=
  match nodes fs !! resolve fs name with
  | Some n => inl (info n)
  | None => inr ENOENT
  end.

Definition open (fs : T) (name : string) : File + OSError :=
  match nodes fs !! resolve fs name with
  | Some (Regular c as n) => inl {| fileStat := inl (info n); fileBytes := c |}
  | Some n => inl {| fileStat := inl (info n); fileBytes := EmptyString |}
  | None => inr ENOENT
  end.

Definition chdir (fs : T) (dir : string) : option OSError * T :=
  match nodes fs !! resolve fs dir with
  | Some (Directory _) =>
      (None, {| nodes := nodes fs; cwd := resolve fs dir;
                clock := clock fs; random := random fs |})
  | Some (Regular _) => (Some ENOTDIR, fs)
  | None => (Some ENOENT, fs)
  end.

Definition mkdir (fs : T) (name : string) (perm : Z) : option OSError * T :=
  let p := resolve fs name in
  match nodes fs !! p with
  | Some _ => (Some EEXIST, fs)
  | None =>
      match parentError fs p with
      | Some err => (Some err, fs)
      | None => (None, withNodes fs (<[p := Directory true]> (nodes fs)))
      end
  end.

Definition remove (fs : T) (name : string) : option OSError * T :=
  let p := resolve fs name in
  match nodes fs !! p with
  | None => (Some ENOENT, fs)
  | Some n =>
      match parentError fs p with
      | Some err => (Some err, fs)
      | None =>
          match n, children fs p with
          | Directory _, _ :: _ => (Some ENOTEMPTY, fs)
          | _, _ => (None, withNodes fs (delete p (nodes fs)))
          end
      end
  end.

Definition create (fs : T) (name : string) : option OSError * T :=
  let p := resolve fs name in
  match nodes fs !! p with
  | Some (Directory _) => (Some EISDIR, fs)
  | Some (Regular _) => (None, withNodes fs (<[p := Regular EmptyString]> (nodes fs)))
  | None =>
      match parentError fs p with
      | Some err => (Some err, fs)
      | None => (None, withNodes fs (<[p := Regular EmptyString]> (nodes fs)))
      end
  end.

Definition copy (fs : T) (name data : string) : option OSError * T :=
  let p := resolve fs name in
  match nodes fs !! p with
  | Some (Regular _) => (None, withNodes fs (<[p := Regular data]> (nodes fs)))
  | _ => (Some EIO, fs)
  end.

(** A command run on a directory prints the keys directly below it. *)
Definition combinedOutput (fs : T) (name : string) (args : list string)
  : (string * option string) * T :=
  match nodes fs !! resolve fs (default EmptyString (last args)) with
  | Some (Directory _) =>
      ((foldr (fun k out => k +:+ newline +:+ out) EmptyString
          (children fs (resolve fs (default EmptyString (last args)))), None), fs)
  | _ => ((EmptyString, Some "exit status 2"), fs)
  end.

Definition now (fs : T) : time.Time * T :=
  (clock fs, {| nodes := nodes fs; cwd := cwd fs;
                clock := clock fs + 1; random := random fs |}).

Definition read (fs : T) (n : nat) : list byte * T :=
  match random fs with
  | bytes :: rest =>
      (take n (bytes ++ repeat x00 n),
       {| nodes := nodes fs; cwd := cwd fs; clock := clock fs; random := rest |})
  | [] => (repeat x00 n, fs)
  end.

#[global] Instance os : OS T := {|
  os_Getwd := getwd;
  os_Stat := stat;
  os_Open := open;
  os_Chdir := chdir;
  os_Mkdir := mkdir;
  os_Remove := remove;
  os_Create := create;
  io_Copy := copy;
  exec_CombinedOutput := combinedOutput;
  time_Now := now;
  rand_Read := read;
|}.

End MemFS.

(** A small tree to run the server on: the root [/srv/data] with a file, a
    sub-directory and a read-only directory holding a file; a sibling
    [/srv/data2] of the root; and [/etc]. *)
Definition sampleNodes : gmap string MemFS.Node :=
  list_to_map
    [ ("/", MemFS.Directory true);
      ("/etc", MemFS.Directory true);
      ("/srv", MemFS.Directory true);
      ("/srv/data", MemFS.Directory true);
      ("/srv/data/a.txt", MemFS.Regular "hi");
      ("/srv/data/foo", MemFS.Directory true);
      ("/srv/data/locked", MemFS.Directory false);
      ("/srv/data/locked/b.txt", MemFS.Regular "x");
      ("/srv/data2", MemFS.Directory true) ].

Definition sampleFS : MemFS.T :=
  {| MemFS.nodes := sampleNodes; MemFS.cwd := "/home/u";
     MemFS.clock := 1000; MemFS.random := [[x01; xab]; [x02]] |}.

Definition sampleRoot : string := "/srv/data".

(** A request on [path] with the query [query], carrying the session cookie
    [token] if any. *)
Definition request (path : string) (token : option string)
    (query : list (string * string)) : Request :=
  {| URLPath := path;
     Cookies := match token with Some t => [("session_id", t)] | None => [] end;
     Query := query;
     MultipartForm := None |}.

(** ** The confinement the specification describes

    The second definition of the confinement check, following the words of
    the specification and not the code: the cleaned absolute candidate is
    the root, or the root is a proper ancestor of it; both compared without
    regard to case. *)

(** A path with a separator at its end: the string every path strictly
    below it starts with. *)
Definition withTrailingSeparator (dir : string) : string :=
  if strings.HasPrefix (String.rev dir) "/" then dir else dir +:+ "/".

(** [isWithinRoot] on a candidate already absolute and cleaned. *)
Definition isWithinRoot (absCandidate root : string) : bool :=
  String.eqb (strings.ToLower absCandidate) (strings.ToLower root)
  || (strings.HasPrefix (strings.ToLower absCandidate)
        (strings.ToLower (withTrailingSeparator root))
      && negb (String.eqb (strings.ToLower absCandidate)
                 (strings.ToLower (withTrailingSeparator root)))).

(** ** Notions used to state and prove the properties *)

(** The last byte of a string. *)
Fixpoint lastByte (s : string) : option ascii :=
  match s with
  | EmptyString => None
  | String c EmptyString => Some c
  | String _ s' => lastByte s'
  end.

(** The bytes of the elements of a list, one more counted per element. *)
Definition weight (l : list string) : nat :=
  foldr (fun e n => S (String.length e + n)) 0%nat l.

(** An element with no separator in it. *)
Definition sepFree (e : string) : Prop := filepath.hasSeparator e = false.

(** An element that [Clean] copies: not empty, not [.], not [..], and
    with no separator in it. *)
Definition proper (e : string) : Prop :=
  e ≠ EmptyString ∧ e ≠ "." ∧ e ≠ ".." ∧ sepFree e.

Section Notions.

Context {W : Type} `{!OS W}.
Variable originalRoot : string.

Implicit Types s : State W.
Implicit Types r : Request.

(** The state after more calls were logged: same sessions, same world. *)
Definition afterCalls s (cs : list Call) : State W :=
  {| sessions := sessions s; world := world s; calls := calls s ++ cs |}.

(** The outcomes of [changeDirectory].

    Every run of the handler is one of: the name is empty after trimming;
    the candidate cannot be examined or is no directory; the candidate
    fails the confinement check; the process cannot move there; the request
    has no cookie; or the session of the cookie is assigned. *)
Inductive cdOutcome r (cur : string) s : Response → State W → Prop :=
  | cd_empty :
      strings.Trim (QueryGet r "dir") dirCutset = EmptyString →
      cdOutcome r cur s (httpError "Invalid directory name" StatusBadRequest) s
  | cd_stat_error newDir err :
      newDir
      = targetDirectory originalRoot cur (strings.Trim (QueryGet r "dir") dirCutset) →
      os_Stat (world s) newDir = inr err →
      cdOutcome r cur s
        (if IsNotExist err
         then httpError "Directory not found" StatusNotFound
         else httpError "Error accessing directory" StatusInternalServerError)
        (afterCalls s [CallStat newDir])
  | cd_not_a_directory newDir info :
      newDir
      = targetDirectory originalRoot cur (strings.Trim (QueryGet r "dir") dirCutset) →
      os_Stat (world s) newDir = inl info → IsDir info = false →
      cdOutcome r cur s (httpError "Not a directory" StatusBadRequest)
        (afterCalls s [CallStat newDir])
  | cd_invalid_path newDir info cs :
      newDir
      = targetDirectory originalRoot cur (strings.Trim (QueryGet r "dir") dirCutset) →
      os_Stat (world s) newDir = inl info → IsDir info = true →
      isPathSafe originalRoot newDir (afterCalls s [CallStat newDir])
      = (false, afterCalls s (CallStat newDir :: cs)) →
      Forall (eq CallGetwd) cs →
      cdOutcome r cur s (httpError "Invalid path" StatusBadRequest)
        (afterCalls s (CallStat newDir :: cs))
  | cd_chdir_error newDir info cs err w :
      newDir
      = targetDirectory originalRoot cur (strings.Trim (QueryGet r "dir") dirCutset) →
      os_Stat (world s) newDir = inl info → IsDir info = true →
      isPathSafe originalRoot newDir (afterCalls s [CallStat newDir])
      = (true, afterCalls s (CallStat newDir :: cs)) →
      Forall (eq CallGetwd) cs →
      os_Chdir (world s) newDir = (Some err, w) →
      cdOutcome r cur s
        (httpError "Error changing directory" StatusInternalServerError)
        {| sessions := sessions s; world := w;
           calls := calls s ++ CallStat newDir :: cs ++ [CallChdir newDir] |}
  | cd_no_cookie newDir info cs w :
      newDir
      = targetDirectory originalRoot cur (strings.Trim (QueryGet r "dir") dirCutset) →
      os_Stat (world s) newDir = inl info → IsDir info = true →
      isPathSafe originalRoot newDir (afterCalls s [CallStat newDir])
      = (true, afterCalls s (CallStat newDir :: cs)) →
      Forall (eq CallGetwd) cs →
      os_Chdir (world s) newDir = (None, w) →
      RequestCookie r "session_id" = None →
      cdOutcome r cur s (httpError "Session error" StatusInternalServerError)
        {| sessions := sessions s; world := w;
           calls := calls s ++ CallStat newDir :: cs ++ [CallChdir newDir] |}
  | cd_committed newDir info cs w id now w' :
      newDir
      = targetDirectory originalRoot cur (strings.Trim (QueryGet r "dir") dirCutset) →
      os_Stat (world s) newDir = inl info → IsDir info = true →
      isPathSafe originalRoot newDir (afterCalls s [CallStat newDir])
      = (true, afterCalls s (CallStat newDir :: cs)) →
      Forall (eq CallGetwd) cs →
      os_Chdir (world s) newDir = (None, w) →
      RequestCookie r "session_id" = Some id →
      time_Now w = (now, w') →
      cdOutcome r cur s (httpOK ("Directory changed to " +:+ newDir))
        {| sessions :=
             <[id := {| CurrentDir := newDir; LastAccess := now |}]> (sessions s);
           world := w';
           calls := calls s ++ CallStat newDir :: cs ++ [CallChdir newDir] |}.

(** How the first part of the wrapper ends: the session of the returned
    key is stored, either the known one with its directory kept, or a new
    one at the root under a generated key that is also sent as a cookie. *)
Inductive resolved r s (id : string) (cookie : option Cookie) (sess : Session)
    (w : W) : Prop :=
  | resolved_known old :
      RequestCookie r "session_id" = Some id →
      sessions s !! id = Some old →
      cookie = None →
      CurrentDir sess = CurrentDir old →
      time_Now (world s) = (LastAccess sess, w) →
      resolved r s id cookie sess w
  | resolved_fresh bytes w1 c :
      (RequestCookie r "session_id" = None
       ∨ ∃ value, RequestCookie r "session_id" = Some value
                  ∧ sessions s !! value = None) →
      rand_Read (world s) 16 = (bytes, w1) →
      id = hex.EncodeToString bytes →
      time_Now w1 = (LastAccess sess, w) →
      CurrentDir sess = originalRoot →
      cookie = Some c → Name c = "session_id" → Value c = id →
      resolved r s id cookie sess w.

(** Every directory held in the map is absolute and passes the confinement
    check, in whatever state the check is run. *)
Definition confined (m : gmap string Session) : Prop :=
  ∀ id sess, m !! id = Some sess →
    filepath.IsAbs (CurrentDir sess) = true
    ∧ ∀ s, (isPathSafe originalRoot (CurrentDir sess) s).1 = true.

End Notions.

(** The key generated from the first random bytes of [sampleFS]. *)
Definition sampleToken : string := "01ab0000000000000000000000000000".

(** The state after a first request with no cookie: one session, at the
    root, under [sampleToken]. *)
Definition sampleState : State MemFS.T :=
  (serve sampleRoot (request "/files" None []) (initialState sampleFS)).2.

(** ** The start of the server *)

(** What the loop of [main] over [os.Args[1:]] ends with: a word that is no
    flag, an index past the end of [os.Args] (the value of a flag that is
    the last word; the program panics), or the folder and the port. *)
Inductive Flags : Type :=
  | FlagsUnknown (flag : string)
  | FlagsIndexOutOfRange
  | FlagsParsed (rootFolder port : string).

(** The loop of [main]: [-f] and [-p] take the next word as their value,
    whatever it is; any other word ends the program. *)
Fixpoint parseFlags (args : list string) (rootFolder port : string) : Flags :=
  match args with
  | [] => FlagsParsed rootFolder port
  | flag :: rest =>
      if String.eqb flag "-f" then
        match rest with
        | value :: rest' => parseFlags rest' value port
        | [] => FlagsIndexOutOfRange
        end
      else if String.eqb flag "-p" then
        match rest with
        | value :: rest' => parseFlags rest' rootFolder value
        | [] => FlagsIndexOutOfRange
        end
      else FlagsUnknown flag
  end.

(** How [main] ends before it serves, or the root and the port it serves
    with. *)
Inductive Startup : Type :=
  | PrintsUsage
  | StopsOnUnknownFlag (flag : string)
  | Panics
  | StopsOnInvalidRoot (err : OSError)
  | Serves (originalRoot port : string).

Section Startup.

Context {W : Type} `{!OS W}.

(** [main] up to the assignment of [originalRoot]; [osArgs] is [os.Args],
    the name of the program first. *)
Definition main (osArgs : list string) : M W Startup :=
  if (length osArgs <? 3)%nat then ret PrintsUsage
  else
    match parseFlags (tail osArgs) EmptyString EmptyString with
    | FlagsUnknown flag => ret (StopsOnUnknownFlag flag)
    | FlagsIndexOutOfRange => ret Panics
    | FlagsParsed rootFolder port =>
        bind (Abs rootFolder) (fun '(absRoot, err) =>
          match err with
          | Some err => ret (StopsOnInvalidRoot err)
          | None => ret (Serves absRoot port)
          end)
    end.

End Startup.

(** ** The client

    The client program [obc], as far as it decides what is asked of the
    server: the session key it keeps, the cookie it attaches, and the
    request each command of its loop sends.  The transport and the
    printing of the answers are left out. *)
Module obc.

(** The loop of [main] over the cookies of the first answer: the value of
    the first cookie named [session_id] becomes [sessionID], which is left
    as it was when there is none. *)
Fixpoint sessionFromCookies (cookies : list Cookie) (sessionID : string) : string :=
  match cookies with
  | [] => sessionID
  | cookie :: rest =>
      if String.eqb (Name cookie) "session_id" then Value cookie
      else sessionFromCookies rest sessionID
  end.

(** [addSessionCookie], on the cookies of a request. *)
Definition addSessionCookie (sessionID : string) (cookies : list (string * string))
  : list (string * string) :=
  if String.eqb sessionID EmptyString then cookies
  else cookies ++ [("session_id", sessionID)].

(** What one turn of the command loop does: it sends a request for
    [serverURL] followed by [target], it posts a local file to [/upload],
    or it prints a message and sends nothing. *)
Inductive Turn : Type :=
  | Sends (method target : string)
  | Uploads (filePath : string)
  | Complains (message : string).

(** The [switch] of the loop of [main]. *)
Definition turn (command arg : string) : Turn :=
  if String.eqb command "ls" then Sends "GET" "/files"
  else if String.eqb command "put" then
    if String.eqb arg EmptyString then Complains "Error: missing file name"
    else Uploads arg
  else if String.eqb command "get" then
    if String.eqb arg EmptyString then Complains "Error: missing file name"
    else Sends "GET" ("/download?file=" +:+ arg)
  else if String.eqb command "rm" then
    if String.eqb arg EmptyString then Complains "Error: missing file name"
    else Sends "DELETE" ("/delete?file=" +:+ arg)
  else if String.eqb command "cd" then
    if String.eqb arg EmptyString then Complains "Error: missing directory name"
    else Sends "GET" ("/cd?dir=" +:+ arg)
  else if String.eqb command "mkdir" then
    if String.eqb arg EmptyString then Complains "Error: missing directory name"
    else Sends "GET" ("/mkdir?dir=" +:+ arg)
  else if String.eqb command "cat" then
    if String.eqb arg EmptyString then Complains "Error: missing file name"
    else Sends "GET" ("/cat?file=" +:+ arg)
  else if String.eqb command "quit" then Sends "GET" "/quit"
  else Complains "Unknown command".

(** The part of a target before its query: the path the server routes on,
    for a server URL that ends with the host and the port. *)
Fixpoint targetPath (target : string) : string :=
  match target with
  | EmptyString => EmptyString
  | String c target' =>
      if Ascii.eqb c "?" then EmptyString else String c (targetPath target')
  end.

(** The path a turn asks the server for, if it asks for one. *)
Definition turnPath (t : Turn) : option string :=
  match t with
  | Sends _ target => Some (targetPath target)
  | Uploads _ => Some "/upload"
  | Complains _ => None
  end.

End obc.

(** ** Further notions *)

(** The routes whose handlers leave the session map alone. *)
Definition keepsDirectory (path : string) : bool :=
  existsb (String.eqb path) ["/files"; "/upload"; "/download"; "/delete"; "/mkdir"].

(** The path a call is made on, if any. *)
Definition callTarget (c : Call) : option string :=
  match c with
  | CallStat p | CallOpen p | CallChdir p | CallMkdir p _
  | CallRemove p | CallCreate p | CallCopy p => Some p
  | CallGetwd | CallExec _ _ => None
  end.

(** Does the call change the file system or the working directory? *)
Definition changesSystem (c : Call) : bool :=
  match c with
  | CallChdir _ => true
  | _ => mutatesFiles c
  end.

(** Are all the bytes of the string in the cutset? *)
Fixpoint allInCutset (cutset s : string) : bool :=
  match s with
  | EmptyString => true
  | String c s' => strings.inCutset cutset c && allInCutset cutset s'
  end.

(** The first byte of a string. *)
Definition firstByte (s : string) : option ascii :=
  match s with
  | EmptyString => None
  | String c _ => Some c
  end.

(** A digit of lower-case hexadecimal. *)
Definition isHexDigit (c : ascii) : bool :=
  strings.inCutset "0123456789abcdef" c.

(** All the bytes of a string satisfy a test. *)
Fixpoint allBytes (test : ascii → bool) (s : string) : bool :=
  match s with
  | EmptyString => true
  | String c s' => test c && allBytes test s'
  end.

(** The shape of the output of [Clean] on a path that is not rooted, last
    element first: proper elements written after leading [..] elements. *)
Definition dotted (out : list string) : Prop :=
  ∃ l n, out = l ++ repeat ".." n ∧ Forall proper l.

(** The value of a digit of hexadecimal. *)
Definition hexValue (c : ascii) : N :=
  match c with
  | "0" => 0 | "1" => 1 | "2" => 2 | "3" => 3 | "4" => 4
  | "5" => 5 | "6" => 6 | "7" => 7 | "8" => 8 | "9" => 9
  | "a" => 10 | "b" => 11 | "c" => 12 | "d" => 13 | "e" => 14
  | _ => 15
  end%char%N.

(** The bytes a string of hexadecimal digits stands for, two digits per
    byte; a digit left over at the end is dropped. *)
Fixpoint hexBytes (s : string) : list byte :=
  match s with
  | String hi (String lo s') =>
      match Byte.of_N (16 * hexValue hi + hexValue lo) with
      | Some b => b :: hexBytes s'
      | None => hexBytes s'
      end
  | _ => []
  end.

(** * Verification *)

(** ** The library model on the inputs of Go's own tests *)

Example Clean_table :
  map filepath.Clean
    [ "abc"; "abc/def"; "."; ".."; "../.."; "../../abc"; "/abc"; "/"; "";
      "abc/"; "./"; "../"; "/abc/"; "abc//def//ghi"; "//abc"; "//abc//";
      "abc/./def"; "/./abc/def"; "abc/."; "abc/def/ghi/../jkl";
      "abc/def/../ghi/../jkl"; "abc/def/.."; "abc/def/../.."; "/abc/def/../..";
      "abc/def/../../.."; "/abc/def/../../..";
      "abc/def/../../../ghi/jkl/../../../mno"; "/../abc"; "abc/./../def";
      "abc/../../././../def" ]
  = [ "abc"; "abc/def"; "."; ".."; "../.."; "../../abc"; "/abc"; "/"; ".";
      "abc"; "."; ".."; "/abc"; "abc/def/ghi"; "/abc"; "/abc";
      "abc/def"; "/abc/def"; "abc"; "abc/def/jkl";
      "abc/jkl"; "abc"; "."; "/";
      ".."; "/";
      "../../mno"; "/abc"; "def";
      "../../def" ].
Proof. reflexivity. Qed.

Example Dir_table :
  map filepath.Dir ["/srv/data"; "/srv"; "/"; ""; "foo"; "/a/b/"; "a/b"; "/a//b"]
  = ["/srv"; "/"; "/"; "."; "."; "/a/b"; "a"; "/a"].
Proof. reflexivity. Qed.

Example Join_table :
  map filepath.Join
    [ ["/srv/data"; "foo"]; ["/srv/data"; "../data2"]; [""; "foo"]; [""; ""];
      ["/srv/data"; ""]; ["/srv/data"; "../../etc"] ]
  = [ "/srv/data/foo"; "/srv/data2"; "foo"; ""; "/srv/data"; "/etc" ].
Proof. reflexivity. Qed.

Example Trim_table :
  map (fun s => strings.Trim s dirCutset)
    ["/../"; " foo/"; "//"; "a b"; String (ascii_of_nat 34) "x"; "\..\"; ""]
  = [".."; "foo"; ""; "a b"; "x"; ".."; ""].
Proof. reflexivity. Qed.

Example EncodeToString_table :
  hex.EncodeToString [x00; x0f; xa5; xff] = "000fa5ff".
Proof. reflexivity. Qed.

(** ** Strings *)

Section StringFacts.

Implicit Types s t p : string.

Lemma HasPrefix_refl s : strings.HasPrefix s s = true.
Proof.
  induction s as [|c s IH]; simpl; [done|].
  by rewrite Ascii.eqb_refl, IH.
Qed.

Lemma HasPrefix_app s t : strings.HasPrefix (s +:+ t) s = true.
Proof.
  induction s as [|c s IH]; simpl; [done|].
  by rewrite Ascii.eqb_refl, IH.
Qed.

Lemma HasPrefix_length s p :
  strings.HasPrefix s p = true → (String.length p ≤ String.length s)%nat.
Proof.
  revert s; induction p as [|c p IH]; intros [|d s]; simpl; try done; try lia.
  intros [_ H]%andb_prop. apply IH in H. lia.
Qed.

Lemma HasPrefix_inv s p :
  strings.HasPrefix s p = true → ∃ t, s = p +:+ t.
Proof.
  revert s; induction p as [|c p IH]; intros s; simpl.
  - by exists s.
  - destruct s as [|d s]; [done|].
    intros [Hc H]%andb_prop. apply Ascii.eqb_eq in Hc as ->.
    destruct (IH _ H) as [t ->]. by exists t.
Qed.

Lemma HasPrefix_trans s t p :
  strings.HasPrefix s t = true → strings.HasPrefix t p = true →
  strings.HasPrefix s p = true.
Proof.
  intros [u ->]%HasPrefix_inv [v ->]%HasPrefix_inv.
  replace ((p +:+ v) +:+ u) with (p +:+ (v +:+ u)); [apply HasPrefix_app|].
  induction p; simpl; congruence.
Qed.

Lemma ToLower_length s : String.length (strings.ToLower s) = String.length s.
Proof. induction s; simpl; congruence. Qed.

Lemma ToLower_app s t :
  strings.ToLower (s +:+ t) = strings.ToLower s +:+ strings.ToLower t.
Proof. induction s; simpl; congruence. Qed.

Lemma HasPrefix_ToLower s p :
  strings.HasPrefix s p = true →
  strings.HasPrefix (strings.ToLower s) (strings.ToLower p) = true.
Proof.
  intros [t ->]%HasPrefix_inv. rewrite ToLower_app. apply HasPrefix_app.
Qed.

Lemma length_app s t :
  String.length (s +:+ t) = (String.length s + String.length t)%nat.
Proof. induction s; simpl; congruence. Qed.

Lemma app_assoc_string s t u : (s +:+ t) +:+ u = s +:+ (t +:+ u).
Proof. induction s; simpl; congruence. Qed.

Lemma app_empty_r s : s +:+ EmptyString = s.
Proof. induction s; simpl; congruence. Qed.

Lemma eqb_false_ne s t : String.eqb s t = false ↔ s ≠ t.
Proof. apply String.eqb_neq. Qed.

End StringFacts.

(** ** Paths *)

Section PathFacts.

Implicit Types p e : string.
Implicit Types l out elems : list string.

Lemma IsAbs_inv p : filepath.IsAbs p = true → ∃ rest, p = String "/" rest.
Proof.
  destruct p as [|c p]; [done|]. unfold filepath.IsAbs; simpl.
  rewrite andb_true_r. intros ->%Ascii.eqb_eq. by eexists.
Qed.

Lemma IsAbs_app p q : filepath.IsAbs p = true → filepath.IsAbs (p +:+ q) = true.
Proof. by intros [rest ->]%IsAbs_inv. Qed.

Lemma elements_nonempty p : filepath.elements p ≠ [].
Proof.
  destruct p as [|c p]; simpl; [done|].
  destruct (IsPathSeparator c); [done|]. by destruct (filepath.elements p).
Qed.

Lemma weight_elements p : weight (filepath.elements p) = S (String.length p).
Proof.
  induction p as [|c p IH]; simpl; [done|].
  destruct (IsPathSeparator c); simpl; [by rewrite IH|].
  pose proof (elements_nonempty p).
  destruct (filepath.elements p) as [|e rest]; [done|].
  simpl in *. lia.
Qed.

Lemma sepFree_elements p : Forall sepFree (filepath.elements p).
Proof.
  induction p as [|c p IH]; simpl; [by repeat constructor|].
  destruct (IsPathSeparator c) eqn:Hc; [by constructor|].
  destruct (filepath.elements p) as [|e rest].
  { constructor; [|constructor]. unfold sepFree; simpl. by rewrite Hc. }
  inversion_clear IH as [|? ? He Hrest]. constructor; [|done].
  unfold sepFree in *; simpl. by rewrite Hc, He.
Qed.

Lemma weight_app l1 l2 : weight (l1 ++ l2) = (weight l1 + weight l2)%nat.
Proof. induction l1 as [|e l1 IH]; simpl; [done|]. rewrite IH. lia. Qed.

Lemma weight_rev l : weight (rev l) = weight l.
Proof.
  induction l as [|e l IH]; simpl; [done|].
  rewrite weight_app, IH. simpl. lia.
Qed.

Lemma length_Join l :
  l ≠ [] → S (String.length (strings.Join l "/")) = weight l.
Proof.
  induction l as [|e l IH]; [done|]. intros _.
  destruct l as [|e' l]; [simpl; lia|].
  change (strings.Join (e :: e' :: l) "/")
    with (e +:+ "/" +:+ strings.Join (e' :: l) "/").
  rewrite !length_app. change (weight (e :: e' :: l))
    with (S (String.length e + weight (e' :: l))).
  rewrite <- IH by done. simpl. lia.
Qed.

(** The loop of [Clean] never writes more than it reads. *)
Lemma weight_cleanLoop rooted out elems :
  (weight (filepath.cleanLoop rooted out elems) ≤ weight out + weight elems)%nat.
Proof.
  revert out; induction elems as [|e elems IH]; intros out; simpl; [lia|].
  repeat case_match; subst;
    (etrans; [apply IH|]); simpl; lia.
Qed.

Lemma Clean_rooted p :
  filepath.IsAbs p = true →
  filepath.Clean p
  = "/" +:+ strings.Join (rev (filepath.cleanLoop true [] (filepath.elements p))) "/".
Proof.
  intros Hp. unfold filepath.Clean. rewrite Hp.
  by destruct (IsAbs_inv _ Hp) as [rest ->].
Qed.

Lemma IsAbs_Clean p : filepath.IsAbs p = true → filepath.IsAbs (filepath.Clean p) = true.
Proof. intros Hp. by rewrite Clean_rooted. Qed.

(** Cleaning a rooted path does not lengthen it. *)
Lemma length_Clean_rooted p :
  filepath.IsAbs p = true →
  (String.length (filepath.Clean p) ≤ String.length p)%nat.
Proof.
  intros Hp. rewrite Clean_rooted by done.
  destruct (IsAbs_inv _ Hp) as [rest ->].
  change (filepath.elements (String "/" rest)) with (EmptyString :: filepath.elements rest).
  change (filepath.cleanLoop true [] (EmptyString :: filepath.elements rest))
    with (filepath.cleanLoop true [] (filepath.elements rest)).
  pose proof (weight_cleanLoop true [] (filepath.elements rest)) as Hw.
  rewrite weight_elements in Hw. simpl in Hw.
  destruct (filepath.cleanLoop true [] (filepath.elements rest)) as [|e out] eqn:Hout.
  - simpl. lia.
  - rewrite <- weight_rev in Hw.
    rewrite <- length_Join in Hw by (simpl; by destruct (rev out)).
    simpl in *. lia.
Qed.

(** What the loop writes on a rooted path: proper elements only. *)
Lemma proper_cleanLoop out elems :
  Forall proper out → Forall sepFree elems →
  Forall proper (filepath.cleanLoop true out elems).
Proof.
  revert out; induction elems as [|e elems IH]; intros out Hout Helems; simpl; [done|].
  inversion_clear Helems as [|? ? He Helems'].
  destruct (String.eqb e "") eqn:E1; [by apply IH|].
  destruct (String.eqb e ".") eqn:E2; [by apply IH|].
  destruct (String.eqb e "..") eqn:E3.
  - destruct out as [|top out']; [by apply IH|].
    inversion_clear Hout as [|? ? Htop Hout'].
    destruct (String.eqb top "..") eqn:E4.
    + apply String.eqb_eq in E4. by destruct Htop as (_ & _ & ? & _).
    + by apply IH.
  - apply IH; [|done]. constructor; [|done].
    apply String.eqb_neq in E1, E2, E3. by repeat split.
Qed.

(** On proper elements the loop only copies. *)
Lemma cleanLoop_proper rooted out elems :
  Forall proper elems → filepath.cleanLoop rooted out elems = rev elems ++ out.
Proof.
  revert out; induction elems as [|e elems IH]; intros out Helems; simpl; [done|].
  inversion_clear Helems as [|? ? (E1 & E2 & E3 & _) Helems'].
  apply String.eqb_neq in E1, E2, E3. rewrite E1, E2, E3.
  rewrite IH by done. by rewrite <- app_assoc.
Qed.

Lemma elements_app_sepFree e p :
  sepFree e →
  filepath.elements (e +:+ "/" +:+ p) = e :: filepath.elements p.
Proof.
  induction e as [|c e IH]; intros He; [done|].
  unfold sepFree in He; simpl in He. apply orb_false_elim in He as [Hc He].
  simpl. rewrite Hc. change (String "/" p) with ("/" +:+ p). by rewrite IH.
Qed.

Lemma elements_sepFree e : sepFree e → filepath.elements e = [e].
Proof.
  induction e as [|c e IH]; intros He; [done|].
  unfold sepFree in He; simpl in He. apply orb_false_elim in He as [Hc He].
  simpl. rewrite Hc. by rewrite IH.
Qed.

(** Cutting a joined list of separator-free elements gives the list back. *)
Lemma elements_Join l :
  l ≠ [] → Forall sepFree l → filepath.elements (strings.Join l "/") = l.
Proof.
  induction l as [|e l IH]; [done|]. intros _ Hl.
  inversion_clear Hl as [|? ? He Hl'].
  destruct l as [|e' l]; [by apply elements_sepFree|].
  change (strings.Join (e :: e' :: l) "/")
    with (e +:+ "/" +:+ strings.Join (e' :: l) "/").
  rewrite elements_app_sepFree by done. by rewrite IH.
Qed.

Lemma proper_sepFree l : Forall proper l → Forall sepFree l.
Proof. intros Hl. eapply Forall_impl; [exact Hl|]. by intros e (_ & _ & _ & ?). Qed.

(** [Clean] is idempotent on rooted paths. *)
Lemma Clean_idempotent_rooted p :
  filepath.IsAbs p = true →
  filepath.Clean (filepath.Clean p) = filepath.Clean p.
Proof.
  intros Hp. rewrite (Clean_rooted (filepath.Clean p)) by by apply IsAbs_Clean.
  rewrite (Clean_rooted p) by done.
  pose proof (proper_cleanLoop [] (filepath.elements p)
                (Forall_nil_2 _) (sepFree_elements p)) as Hout.
  apply Forall_rev in Hout.
  destruct (rev (filepath.cleanLoop true [] (filepath.elements p))) as [|e out]; [done|].
  f_equal.
  change (filepath.elements ("/" +:+ strings.Join (e :: out) "/"))
    with (EmptyString :: filepath.elements (strings.Join (e :: out) "/")).
  rewrite elements_Join by (done || by apply proper_sepFree).
  change (filepath.cleanLoop true [] (EmptyString :: e :: out))
    with (filepath.cleanLoop true [] (e :: out)).
  rewrite cleanLoop_proper by done.
  by rewrite app_nil_r, rev_involutive.
Qed.

Lemma lastByte_app s t : t ≠ EmptyString → lastByte (s +:+ t) = lastByte t.
Proof.
  intros Ht. induction s as [|c s IH]; [done|].
  simpl. rewrite IH. destruct (s +:+ t) eqn:E; [|done].
  destruct s; [by simpl in E|done].
Qed.

Lemma lastByte_sepFree e :
  e ≠ EmptyString → sepFree e →
  ∃ c, lastByte e = Some c ∧ IsPathSeparator c = false.
Proof.
  induction e as [|c e IH]; [done|]. intros _ He.
  unfold sepFree in He; simpl in He. apply orb_false_elim in He as [Hc He].
  destruct e as [|d e]; [by exists c|].
  destruct IH as (c' & ? & ?); [done..|]. by exists c'.
Qed.

Lemma lastByte_Join l :
  l ≠ [] → Forall proper l →
  ∃ c, lastByte (strings.Join l "/") = Some c ∧ IsPathSeparator c = false.
Proof.
  induction l as [|e l IH]; [done|]. intros _ Hl.
  inversion_clear Hl as [|? ? (He & _ & _ & Hs) Hl'].
  destruct l as [|e' l]; [by apply lastByte_sepFree|].
  change (strings.Join (e :: e' :: l) "/")
    with (e +:+ "/" +:+ strings.Join (e' :: l) "/").
  destruct IH as (c & Hc & ?); [done..|].
  exists c. split; [|done].
  assert (strings.Join (e' :: l) "/" ≠ EmptyString) as Hne.
  { intros E. by rewrite E in Hc. }
  rewrite lastByte_app; [by rewrite lastByte_app|].
  by destruct (strings.Join (e' :: l) "/").
Qed.

(** A cleaned rooted path is [/] or does not end in a separator. *)
Lemma lastByte_Clean_rooted p :
  filepath.IsAbs p = true →
  filepath.Clean p = "/"
  ∨ ∃ c, lastByte (filepath.Clean p) = Some c ∧ IsPathSeparator c = false.
Proof.
  intros Hp. rewrite Clean_rooted by done.
  pose proof (proper_cleanLoop [] (filepath.elements p)
                (Forall_nil_2 _) (sepFree_elements p)) as Hout.
  apply Forall_rev in Hout.
  destruct (rev (filepath.cleanLoop true [] (filepath.elements p))) as [|e out];
    [by left|right].
  destruct (lastByte_Join (e :: out)) as (c & Hc & ?); [done..|].
  exists c. split; [|done]. rewrite lastByte_app; [done|].
  intros E. by rewrite E in Hc.
Qed.

Lemma length_uptoLastSeparator p :
  (String.length (filepath.uptoLastSeparator p) ≤ String.length p)%nat.
Proof.
  induction p as [|c p IH]; simpl; [done|].
  repeat case_match; simpl; lia.
Qed.

(** The last element of a path that does not end in a separator is not
    empty: cutting it off shortens the path. *)
Lemma length_uptoLastSeparator_lt p c :
  lastByte p = Some c → IsPathSeparator c = false →
  (String.length (filepath.uptoLastSeparator p) < String.length p)%nat.
Proof.
  induction p as [|d p IH]; [done|]. intros Hlast Hc. simpl.
  destruct (filepath.hasSeparator p) eqn:Hsep.
  - destruct p as [|d' p']; [done|].
    specialize (IH Hlast Hc). simpl in *. lia.
  - destruct (IsPathSeparator d) eqn:Hd; simpl; [|lia].
    destruct p as [|d' p']; [|simpl; lia].
    simpl in Hlast. congruence.
Qed.

Lemma IsAbs_uptoLastSeparator p :
  filepath.IsAbs p = true → filepath.IsAbs (filepath.uptoLastSeparator p) = true.
Proof.
  intros [rest ->]%IsAbs_inv. simpl. by destruct (filepath.hasSeparator rest).
Qed.

Lemma IsAbs_Dir p : filepath.IsAbs p = true → filepath.IsAbs (filepath.Dir p) = true.
Proof. intros Hp. by apply IsAbs_Clean, IsAbs_uptoLastSeparator. Qed.

Lemma Join_rooted p q :
  filepath.IsAbs p = true →
  filepath.Join [p; q] = filepath.Clean (p +:+ "/" +:+ q).
Proof. by intros [rest ->]%IsAbs_inv. Qed.

Lemma IsAbs_Join p q :
  filepath.IsAbs p = true → filepath.IsAbs (filepath.Join [p; q]) = true.
Proof.
  intros Hp. rewrite Join_rooted by done. by apply IsAbs_Clean, IsAbs_app.
Qed.

(** The parent of a cleaned rooted path other than [/] is shorter, and
    stays shorter when cleaned again. *)
Lemma length_Clean_Dir root :
  filepath.IsAbs root = true → filepath.Clean root = root → root ≠ "/" →
  (String.length (filepath.Clean (filepath.Dir root)) < String.length root)%nat.
Proof.
  intros Habs Hclean Hne.
  destruct (lastByte_Clean_rooted root Habs) as [E|(c & Hc & Hsep)];
    [congruence|].
  rewrite Hclean in Hc.
  pose proof (length_uptoLastSeparator_lt root c Hc Hsep).
  pose proof (length_Clean_rooted _ (IsAbs_Dir _ Habs)).
  pose proof (length_Clean_rooted _ (IsAbs_uptoLastSeparator _ Habs)).
  unfold filepath.Dir in *. lia.
Qed.

End PathFacts.

(** ** The confinement check and the handlers *)

Section ServerFacts.

Context {W : Type} `{!OS W}.
Variable originalRoot : string.

Implicit Types s : State W.
Implicit Types r : Request.

Abbreviation isPathSafe := (isPathSafe originalRoot).
Abbreviation changeDirectory := (changeDirectory originalRoot).
Abbreviation targetDirectory := (targetDirectory originalRoot).
Abbreviation cdOutcome := (cdOutcome originalRoot).
Abbreviation resolved := (resolved originalRoot).
Abbreviation confined := (confined originalRoot).

Lemma afterCalls_nil s : afterCalls s [] = s.
Proof. destruct s. unfold afterCalls; simpl. by rewrite app_nil_r. Qed.

Lemma afterCalls_app s cs cs' :
  afterCalls (afterCalls s cs) cs' = afterCalls s (cs ++ cs').
Proof. unfold afterCalls; simpl. by rewrite app_assoc. Qed.

(** [filepath.Abs] reads the working directory at most once and touches
    nothing else. *)
Lemma Abs_frame path s :
  (filepath.IsAbs path = true ∧ Abs path s = ((filepath.Clean path, None), s))
  ∨ (filepath.IsAbs path = false
     ∧ (Abs path s).2 = afterCalls s [CallGetwd]).
Proof.
  unfold Abs. destruct (filepath.IsAbs path); [by left|right].
  split; [done|]. unfold bind, Getwd, ret; simpl.
  by destruct (os_Getwd (world s)).
Qed.

(** [isPathSafe] leaves the sessions and the world as they are; the only
    calls it makes read the working directory. *)
Lemma isPathSafe_frame path s :
  ∃ cs, (isPathSafe path s).2 = afterCalls s cs ∧ Forall (eq CallGetwd) cs.
Proof.
  unfold isPathSafe, bind.
  destruct (Abs_frame path s) as [[_ E]|[_ E]].
  - rewrite E.
    destruct (Abs_frame originalRoot s) as [[_ E']|[_ E']].
    + rewrite E'. exists []. by rewrite afterCalls_nil.
    + destruct (Abs originalRoot s) as [[absRoot err] s']; simpl in *; subst.
      exists [CallGetwd]. split; [done|by repeat constructor].
  - destruct (Abs path s) as [[absPath err] s']; simpl in *; subst.
    destruct (Abs_frame originalRoot (afterCalls s [CallGetwd])) as [[_ E']|[_ E']].
    + rewrite E'. exists [CallGetwd]. split; [done|by repeat constructor].
    + destruct (Abs originalRoot _) as [[absRoot err'] s']; simpl in *; subst.
      exists [CallGetwd; CallGetwd]. split; [by rewrite afterCalls_app|by repeat constructor].
Qed.

(** On absolute paths the check is a comparison of strings: no call is
    made, and the state plays no part. *)
Lemma isPathSafe_absolute path s :
  filepath.IsAbs path = true → filepath.IsAbs originalRoot = true →
  isPathSafe path s
  = (strings.HasPrefix (strings.ToLower (filepath.Clean path))
       (strings.ToLower (filepath.Clean originalRoot)), s).
Proof.
  intros Hp Hr. unfold isPathSafe, Abs, bind, ret. by rewrite Hp, Hr.
Qed.

(** The root passes its own check. *)
Lemma isPathSafe_root s :
  filepath.IsAbs originalRoot = true → isPathSafe originalRoot s = (true, s).
Proof.
  intros Hr. rewrite isPathSafe_absolute by done. by rewrite HasPrefix_refl.
Qed.

Lemma isPathSafe_run path s :
  ∃ safe cs, isPathSafe path s = (safe, afterCalls s cs) ∧ Forall (eq CallGetwd) cs.
Proof.
  destruct (isPathSafe_frame path s) as (cs & E & Hcs).
  destruct (isPathSafe path s) as [safe s'] eqn:Es; simpl in E; subst.
  by exists safe, cs.
Qed.

(** *** What each handler does to the session map *)

Lemma listFiles_sessions r cur s : sessions (listFiles r cur s).2 = sessions s.
Proof.
  unfold listFiles, bind, CombinedOutput, ret.
  by destruct (exec_CombinedOutput _ _ _) as [[output [msg|]] w].
Qed.

Lemma uploadFile_sessions r cur s :
  sessions (uploadFile originalRoot r cur s).2 = sessions s.
Proof.
  unfold uploadFile. destruct (MultipartForm r) as [form|]; [|done].
  destruct (FormFile form "file") as [handler|]; [|done].
  unfold bind.
  destruct (isPathSafe_run (filepath.Join [cur; Filename handler]) s)
    as (safe & cs & -> & _).
  destruct safe; [|done]. unfold Create, Copy, ret; simpl.
  destruct (os_Create _ _) as [[err|] w]; [done|]. simpl.
  by destruct (io_Copy _ _ _) as [[err|] w'].
Qed.

Lemma downloadFile_sessions r cur s :
  sessions (downloadFile originalRoot r cur s).2 = sessions s.
Proof.
  unfold downloadFile, bind.
  destruct (isPathSafe_run (filepath.Join [cur; QueryGet r "file"]) s)
    as (safe & cs & -> & _).
  destruct safe; [|done]. unfold Open, ret; simpl.
  destruct (os_Open _ _) as [file|err]; [|done].
  by destruct (fileStat file).
Qed.

Lemma deleteFile_sessions r cur s :
  sessions (deleteFile originalRoot r cur s).2 = sessions s.
Proof.
  unfold deleteFile, bind.
  destruct (isPathSafe_run (filepath.Join [cur; QueryGet r "file"]) s)
    as (safe & cs & -> & _).
  destruct safe; [|done]. unfold Remove, ret; simpl.
  by destruct (os_Remove _ _) as [[err|] w].
Qed.

Lemma createDirectory_sessions r cur s :
  sessions (createDirectory originalRoot r cur s).2 = sessions s.
Proof.
  unfold createDirectory.
  destruct (String.eqb _ EmptyString); [done|]. unfold bind.
  destruct (isPathSafe_run
              (filepath.Clean
                 (filepath.Join [cur; strings.Trim (QueryGet r "dir") dirCutset])) s)
    as (safe & cs & -> & _).
  destruct safe; [|done]. unfold Mkdir, ret; simpl.
  by destruct (os_Mkdir _ _ _) as [[err|] w].
Qed.

Lemma handleQuit_sessions r cur s :
  sessions (handleQuit r cur s).2
  = match RequestCookie r "session_id" with
    | Some id => delete id (sessions s)
    | None => sessions s
    end.
Proof. unfold handleQuit, bind. by destruct (RequestCookie r "session_id"). Qed.

(** The result of a run, read off the equation that defines it. *)
Ltac run_ends E := cbv [ret] in E; injection E as <- <-.

(** The log of calls put in the shape the outcomes state it in. *)
Ltac tidy_calls :=
  unfold logged, afterCalls; simpl; rewrite <- app_assoc; simpl.

Lemma changeDirectory_outcome r cur s :
  cdOutcome r cur s (changeDirectory r cur s).1 (changeDirectory r cur s).2.
Proof.
  destruct (changeDirectory r cur s) as [resp s'] eqn:E; simpl.
  unfold changeDirectory in E.
  destruct (String.eqb _ EmptyString) eqn:Hname.
  { apply String.eqb_eq in Hname. run_ends E. by apply cd_empty. }
  set (newDir := targetDirectory cur _) in E.
  unfold bind at 1 in E. unfold Stat at 1 in E.
  change (logged (CallStat newDir) (world s) s)
    with (afterCalls s [CallStat newDir]) in E.
  destruct (os_Stat (world s) newDir) as [info|err] eqn:Hstat.
  2:{ pose proof (cd_stat_error originalRoot r cur s newDir err eq_refl Hstat) as H.
      destruct (IsNotExist err); by run_ends E. }
  destruct (IsDir info) eqn:Hdir; simpl in E.
  2:{ run_ends E. by eapply cd_not_a_directory. }
  unfold bind at 1 in E.
  destruct (isPathSafe_run newDir (afterCalls s [CallStat newDir]))
    as (safe & cs & Hsafe & Hcs).
  rewrite afterCalls_app in Hsafe. simpl in Hsafe. rewrite Hsafe in E.
  destruct safe; simpl in E.
  2:{ run_ends E. by eapply cd_invalid_path. }
  unfold bind at 1 in E. unfold Chdir at 1 in E. simpl in E.
  destruct (os_Chdir (world s) newDir) as [[err|] w] eqn:Hchdir; simpl in E.
  { run_ends E. tidy_calls. by eapply cd_chdir_error. }
  destruct (RequestCookie r "session_id") as [id|] eqn:Hcookie; simpl in E.
  2:{ run_ends E. tidy_calls. by eapply cd_no_cookie. }
  unfold bind, commitDirectory, bind, Now, storeSession, ret in E; simpl in E.
  destruct (time_Now w) as [now w'] eqn:Hnow; simpl in E.
  run_ends E. tidy_calls. by eapply cd_committed.
Qed.

(** *** [withSession] *)

Lemma resolveSession_run r s :
  ∃ id cookie sess w,
    resolveSession originalRoot r s
    = ((id, cookie),
       {| sessions := <[id := sess]> (sessions s); world := w; calls := calls s |})
    ∧ resolved r s id cookie sess w.
Proof.
  unfold resolveSession.
  destruct (RequestCookie r "session_id") as [value|] eqn:Hcookie.
  - unfold bind at 1. unfold lookupSession at 1.
    destruct (sessions s !! value) as [old|] eqn:Hold.
    + unfold bind, Now, storeSession, ret; simpl.
      destruct (time_Now (world s)) as [now w] eqn:Hnow; simpl.
      eexists value, None, {| CurrentDir := CurrentDir old; LastAccess := now |}, w.
      split; [done|]. by eapply resolved_known.
    + unfold bind, generateSessionID, bind, randRead, Now, storeSession, ret; simpl.
      destruct (rand_Read (world s) 16) as [bytes w1] eqn:Hrand; simpl.
      destruct (time_Now w1) as [now w] eqn:Hnow; simpl.
      eexists _, _, {| CurrentDir := originalRoot; LastAccess := now |}, w.
      split; [done|]. eapply resolved_fresh; eauto.
  - unfold bind, generateSessionID, bind, randRead, Now, storeSession, ret; simpl.
    destruct (rand_Read (world s) 16) as [bytes w1] eqn:Hrand; simpl.
    destruct (time_Now w1) as [now w] eqn:Hnow; simpl.
    eexists _, _, {| CurrentDir := originalRoot; LastAccess := now |}, w.
    split; [done|]. eapply resolved_fresh; eauto.
Qed.

(** With no other goroutine in between, the handler runs on the directory
    of the session just stored. *)
Lemma withSession_run (fn : Handler W) r s :
  ∃ id cookie sess w,
    resolved r s id cookie sess w
    ∧ withSession originalRoot fn r s
      = let res := fn r (CurrentDir sess)
                     {| sessions := <[id := sess]> (sessions s);
                        world := w; calls := calls s |} in
        (withCookie cookie res.1, res.2).
Proof.
  destruct (resolveSession_run r s) as (id & cookie & sess & w & E & Hres).
  exists id, cookie, sess, w. split; [done|].
  unfold withSession, bind. rewrite E. unfold readSession; simpl.
  rewrite lookup_total_insert_eq. by destruct (fn r _ _).
Qed.

(** *** The invariant of the session map *)

Section Invariant.

Hypothesis root_absolute : filepath.IsAbs originalRoot = true.

Lemma confined_empty : confined ∅.
Proof. intros id sess. by rewrite lookup_empty. Qed.

Lemma confined_insert m id sess s0 :
  confined m →
  filepath.IsAbs (CurrentDir sess) = true →
  (isPathSafe (CurrentDir sess) s0).1 = true →
  confined (<[id := sess]> m).
Proof.
  intros Hm Habs Hsafe id' sess'. rewrite lookup_insert.
  case_decide; [|by apply Hm]. intros [= <-]. split; [done|]. intros s.
  rewrite isPathSafe_absolute in Hsafe |- * by done. done.
Qed.

Lemma confined_subseteq m m' : m' ⊆ m → confined m → confined m'.
Proof.
  intros Hsub Hm id sess Hid. apply (Hm id).
  by eapply lookup_weaken.
Qed.

Lemma targetDirectory_absolute cur name :
  filepath.IsAbs cur = true → filepath.IsAbs (targetDirectory cur name) = true.
Proof.
  intros Hcur. unfold targetDirectory.
  destruct (String.eqb name ".."); [by apply IsAbs_Dir|].
  destruct (String.eqb name "root"); [done|].
  by apply IsAbs_Clean, IsAbs_Join.
Qed.

(** [changeDirectory] keeps the invariant: what it stores has passed the
    check just before. *)
Lemma changeDirectory_confined r cur s :
  filepath.IsAbs cur = true →
  confined (sessions s) → confined (sessions (changeDirectory r cur s).2).
Proof.
  intros Hcur Hs.
  destruct (changeDirectory_outcome r cur s)
    as [| | | | | |newDir info cs w id now w' -> _ _ Hsafe _ _ _ _]; simpl; try done.
  eapply confined_insert; [done|simpl; by apply targetDirectory_absolute|].
  simpl. by erewrite Hsafe.
Qed.

(** Every handler with a route keeps the invariant. *)
Lemma handler_confined path (fn : Handler W) r cur s :
  route originalRoot path = Some fn →
  filepath.IsAbs cur = true →
  confined (sessions s) → confined (sessions (fn r cur s).2).
Proof.
  intros Hroute Hcur Hs. unfold route in Hroute.
  repeat case_match; simplify_eq.
  - by rewrite listFiles_sessions.
  - by rewrite uploadFile_sessions.
  - by rewrite downloadFile_sessions.
  - by rewrite deleteFile_sessions.
  - by apply changeDirectory_confined.
  - by rewrite createDirectory_sessions.
  - rewrite handleQuit_sessions. destruct (RequestCookie r "session_id"); [|done].
    eapply confined_subseteq; [apply delete_subseteq|done].
Qed.

Lemma serve_confined r s :
  confined (sessions s) → confined (sessions (serve originalRoot r s).2).
Proof.
  intros Hs. unfold serve.
  destruct (route originalRoot (URLPath r)) as [fn|] eqn:Hroute; [|done].
  destruct (withSession_run fn r s) as (id & cookie & sess & w & Hres & ->).
  simpl.
  assert (filepath.IsAbs (CurrentDir sess) = true
          ∧ (isPathSafe (CurrentDir sess) s).1 = true) as [Habs Hsafe].
  { destruct Hres as [old _ Hold _ -> _|? ? ? _ _ _ _ -> _ _ _].
    - destruct (Hs _ _ Hold) as [? Hsafe]. by split.
    - split; [done|]. by rewrite isPathSafe_root. }
  eapply handler_confined; [done..|].
  by eapply confined_insert.
Qed.

Lemma step_confined s s' :
  step originalRoot s s' → confined (sessions s) → confined (sessions s').
Proof.
  intros [r s0|clock s0|w s0] Hs; simpl.
  - by apply serve_confined.
  - eapply confined_subseteq; [apply map_filter_subseteq|done].
  - done.
Qed.

Lemma reachable_confined w s :
  reachable originalRoot w s → confined (sessions s).
Proof.
  induction 1 as [|s s' _ IH Hstep]; [apply confined_empty|].
  by eapply step_confined.
Qed.

End Invariant.

(** A [/cd] request carrying the key of a session: the wrapper refreshes
    the session and hands its directory to [changeDirectory]; no cookie is
    set. *)
Lemma serve_cd_known r s id sess :
  URLPath r = "/cd" →
  RequestCookie r "session_id" = Some id →
  sessions s !! id = Some sess →
  ∃ now w,
    time_Now (world s) = (now, w)
    ∧ serve originalRoot r s
      = changeDirectory r (CurrentDir sess)
          {| sessions := <[id := {| CurrentDir := CurrentDir sess; LastAccess := now |}]>
                           (sessions s);
             world := w; calls := calls s |}.
Proof.
  intros Hpath Hcookie Hid. unfold serve. rewrite Hpath.
  change (route originalRoot "/cd") with (Some changeDirectory).
  unfold withSession, bind, resolveSession. rewrite Hcookie.
  unfold bind, lookupSession. rewrite Hid.
  unfold bind, Now, storeSession, ret, readSession; simpl.
  destruct (time_Now (world s)) as [now w]; simpl.
  exists now, w. split; [done|].
  rewrite lookup_total_insert_eq; simpl.
  by destruct (changeDirectory r _ _) as [[] ?].
Qed.

(** What [main] stores in [originalRoot]: when [filepath.Abs] succeeds, in
    a process whose working directory is a rooted path, the result is
    absolute and clean. *)
Lemma Abs_absolute_clean path s p :
  (∀ wd, os_Getwd (world s) = inl wd → filepath.IsAbs wd = true) →
  (Abs path s).1 = (p, None) →
  filepath.IsAbs p = true ∧ filepath.Clean p = p.
Proof.
  intros Hwd. unfold Abs.
  destruct (filepath.IsAbs path) eqn:Hpath.
  - intros [= <-]. split; [by apply IsAbs_Clean|by apply Clean_idempotent_rooted].
  - unfold bind, Getwd, ret; cbn -[filepath.Join].
    destruct (os_Getwd (world s)) as [wd|err] eqn:Hgetwd; cbn -[filepath.Join];
      [|done].
    intros E. apply (f_equal fst) in E. cbn [fst] in E. subst p.
    specialize (Hwd wd eq_refl).
    rewrite Join_rooted by done.
    split; [by apply IsAbs_Clean, IsAbs_app
           |by apply Clean_idempotent_rooted, IsAbs_app].
Qed.

End ServerFacts.

(** ** The session store *)

Section StoreFacts.

Implicit Types m : gmap string Session.

Lemma Since_gt_iff (now t : time.Time) (d : time.Duration) :
  time.minDuration ≤ d < time.maxDuration →
  time.Since now t > d ↔ now - t > d.
Proof. unfold time.Since, time.Sub, time.minDuration, time.maxDuration. lia. Qed.

Lemma five_minutes : 5 * time.Minute = 300000000000.
Proof. reflexivity. Qed.

Lemma expired_iff now sess :
  expired now sess ↔ now - LastAccess sess > 300000000000.
Proof.
  unfold expired. rewrite five_minutes. apply Since_gt_iff.
  unfold time.minDuration, time.maxDuration. lia.
Qed.

(** An entry survives a pass of the sweep exactly when it was there and is
    not expired at the reading made for it. *)
Lemma sweepSessions_lookup_Some clock m id sess :
  sweepSessions clock m !! id = Some sess
  ↔ m !! id = Some sess ∧ clock id - LastAccess sess ≤ 300000000000.
Proof.
  unfold sweepSessions. rewrite map_lookup_filter_Some. simpl.
  rewrite expired_iff. intuition lia.
Qed.

Lemma sweepSessions_lookup clock m id :
  sweepSessions clock m !! id
  = match m !! id with
    | Some sess =>
        if bool_decide (clock id - LastAccess sess > 300000000000)
        then None else Some sess
    | None => None
    end.
Proof.
  destruct (m !! id) as [sess|] eqn:Hid.
  - case_bool_decide as Hexp.
    + apply eq_None_not_Some. intros [sess' Hsome].
      apply sweepSessions_lookup_Some in Hsome as [Hid' ?].
      rewrite Hid in Hid'. simplify_eq. lia.
    + apply sweepSessions_lookup_Some. split; [done|lia].
  - apply eq_None_not_Some. intros [sess' Hsome].
    apply sweepSessions_lookup_Some in Hsome as [Hid' ?]. congruence.
Qed.

End StoreFacts.

(** ** The confinement check against its specification *)

Section Confinement.

Context {W : Type} `{!OS W}.
Variable originalRoot : string.

Implicit Types s : State W.

(** Whatever the specification accepts, the code accepts: a candidate that
    is the root or lies below it, case aside, passes [isPathSafe]. *)
Lemma isWithinRoot_isPathSafe path s :
  filepath.IsAbs path = true →
  filepath.IsAbs originalRoot = true →
  filepath.Clean originalRoot = originalRoot →
  isWithinRoot (filepath.Clean path) originalRoot = true →
  (isPathSafe originalRoot path s).1 = true.
Proof.
  intros Hp Hr Hclean Hin. rewrite isPathSafe_absolute by done. simpl.
  rewrite Hclean. unfold isWithinRoot in Hin.
  apply orb_prop in Hin as [Heq|[Hpre _]%andb_prop].
  - apply String.eqb_eq in Heq as ->. apply HasPrefix_refl.
  - eapply HasPrefix_trans; [exact Hpre|].
    apply HasPrefix_ToLower. unfold withTrailingSeparator.
    destruct (strings.HasPrefix (String.rev originalRoot) "/");
      [apply HasPrefix_refl|apply HasPrefix_app].
Qed.

(** C1 (the code at the failing input).  With the root [/root], the sibling
    [/root2] passes [isPathSafe] in every state, although it is neither the
    root nor below it: the check compares the two strings and asks for no
    separator after the root. *)
Theorem isPathSafe_accepts_sibling s :
  (isPathSafe "/root" "/root2" s).1 = true
  ∧ isWithinRoot (filepath.Clean "/root2") "/root" = false.
Proof. split; [by rewrite isPathSafe_absolute|done]. Qed.

End Confinement.

(** ** Runs on the sample tree *)

Example sampleState_sessions :
  map_to_list (sessions sampleState)
  = [(sampleToken, {| CurrentDir := "/srv/data"; LastAccess := 1000 |})].
Proof. vm_compute. reflexivity. Qed.

Lemma sampleState_reachable : reachable sampleRoot sampleFS sampleState.
Proof. eapply reachable_step; [apply reachable_initial|apply step_serve]. Qed.

(** ** The invariant of the sessions *)

(** X27, the part of C2 that holds.  In every state the server reaches from its
    start, through any sequence of requests served one after the other
    (first contacts that create sessions, [/cd], [/upload], [/mkdir],
    [/delete] and the other routes), passes of the sweep and changes of the
    world around it, the directory of every session in the map passes
    [isPathSafe] against the root, in whatever state the check is run. *)
Theorem session_directories_confined {W : Type} `{!OS W}
    (originalRoot : string) (w : W) (s : State W) :
  filepath.IsAbs originalRoot = true →
  reachable originalRoot w s →
  ∀ id sess, sessions s !! id = Some sess →
    ∀ s', (isPathSafe originalRoot (CurrentDir sess) s').1 = true.
Proof.
  intros Hroot Hreach id sess Hid s'.
  by apply (reachable_confined originalRoot Hroot w s Hreach id sess Hid).
Qed.

Lemma session_directories_confined_witness :
  (isPathSafe sampleRoot "/srv/data/foo" (initialState sampleFS)).1 = true.
Proof.
  apply (session_directories_confined sampleRoot sampleFS
           (serve sampleRoot (request "/cd" (Some sampleToken) [("dir", "foo")])
              sampleState).2
           eq_refl
           (reachable_step _ _ _ _ sampleState_reachable (step_serve _ _ _))
           sampleToken {| CurrentDir := "/srv/data/foo"; LastAccess := 1002 |}).
  vm_compute. reflexivity.
Defined.

(** ** Navigating to the parent of the root *)

Section ParentOfRoot.

Context {W : Type} `{!OS W}.
Variable originalRoot : string.

Implicit Types s : State W.
Implicit Types r : Request.

Hypothesis root_absolute : filepath.IsAbs originalRoot = true.
Hypothesis root_clean : filepath.Clean originalRoot = originalRoot.

(** The parent of a root other than [/] fails the check: it is shorter
    than the root, so the root cannot be a prefix of it. *)
Lemma parent_of_root_unsafe s :
  originalRoot ≠ "/" →
  isPathSafe originalRoot (filepath.Dir originalRoot) s = (false, s).
Proof.
  intros Hne. rewrite isPathSafe_absolute by (done || by apply IsAbs_Dir).
  f_equal. apply not_true_is_false. intros Hpre%HasPrefix_length.
  rewrite !ToLower_length, root_clean in Hpre.
  pose proof (length_Clean_Dir originalRoot root_absolute root_clean Hne). lia.
Qed.

(** [changeDirectory] run at the root with a name that trims to [..]. *)
Lemma changeDirectory_parent_of_root r s :
  strings.Trim (QueryGet r "dir") dirCutset = ".." →
  let res := changeDirectory originalRoot r originalRoot s in
  (originalRoot ≠ "/" →
     StatusCode res.1 ≠ StatusOK ∧ sessions res.2 = sessions s
     ∧ ∀ info, os_Stat (world s) (filepath.Dir originalRoot) = inl info →
         IsDir info = true →
         res = (httpError "Invalid path" StatusBadRequest,
                afterCalls s [CallStat (filepath.Dir originalRoot)]))
  ∧ (sessions res.2 = sessions s
     ∨ originalRoot = "/"
       ∧ ∃ id now, RequestCookie r "session_id" = Some id
           ∧ sessions res.2
             = <[id := {| CurrentDir := originalRoot; LastAccess := now |}]> (sessions s)).
Proof.
  intros Htrim res.
  assert (targetDirectory originalRoot originalRoot ".." = filepath.Dir originalRoot)
    as Htarget by done.
  pose proof (changeDirectory_outcome originalRoot r originalRoot s) as Hout.
  fold res in Hout. rewrite (surjective_pairing res).
  destruct (decide (originalRoot = "/")) as [Hslash|Hne].
  - split; [done|].
    assert (filepath.Dir originalRoot = originalRoot) as Hdir by by rewrite Hslash.
    destruct Hout as [| | | | | |newDir info cs w id now w' Hnew _ _ _ _ _ Hcookie _];
      simpl; try by left.
    rewrite Htrim, Htarget, Hdir in Hnew. subst newDir.
    right. split; [done|]. by exists id, now.
  - pose proof (parent_of_root_unsafe
                  (afterCalls s [CallStat (filepath.Dir originalRoot)]) Hne) as Hunsafe.
    destruct Hout
      as [Hempty
         |newDir err Hnew Hstat
         |newDir info Hnew Hstat Hdir
         |newDir info cs Hnew Hstat Hdir Hsafe Hcs
         |newDir info cs err w Hnew Hstat Hdir Hsafe Hcs Hchdir
         |newDir info cs w Hnew Hstat Hdir Hsafe Hcs Hchdir Hcookie
         |newDir info cs w id now w' Hnew Hstat Hdir Hsafe Hcs Hchdir Hcookie Hnow];
      try (rewrite Htrim, Htarget in Hnew; subst newDir).
    + by rewrite Htrim in Hempty.
    + split; [intros _|by left]. split_and!; [by destruct (IsNotExist err)|done|].
      intros info. by rewrite Hstat.
    + split; [intros _|by left]. split_and!; [done..|].
      intros info' Hstat'. rewrite Hstat in Hstat'. simplify_eq. by rewrite Hdir.
    + split; [intros _|by left]. split_and!; [done..|].
      intros _ _ _. rewrite Hunsafe in Hsafe.
      apply (f_equal snd) in Hsafe. simpl in Hsafe. by rewrite <- Hsafe.
    + rewrite Hunsafe in Hsafe. discriminate.
    + rewrite Hunsafe in Hsafe. discriminate.
    + rewrite Hunsafe in Hsafe. discriminate.
Qed.

(** C5.  A session whose directory is the root asks [/cd] for [..] (the
    [dir] parameter trims to it).  After the request the session still
    holds the root and no other entry of the map has changed; unless the
    root is [/], whose parent is [/] itself, the request is answered with
    an error.  The handler has no case for the root: it takes the lexical
    parent, examines it, and when that is an existing directory it is the
    confinement check, run afterwards, that answers [Invalid path]. *)
Theorem parent_of_root_rejected r s id sess :
  URLPath r = "/cd" →
  RequestCookie r "session_id" = Some id →
  sessions s !! id = Some sess →
  CurrentDir sess = originalRoot →
  strings.Trim (QueryGet r "dir") dirCutset = ".." →
  let res := serve originalRoot r s in
  (∃ sess', sessions res.2 !! id = Some sess' ∧ CurrentDir sess' = originalRoot)
  ∧ (∀ id', id' ≠ id → sessions res.2 !! id' = sessions s !! id')
  ∧ (originalRoot ≠ "/" → StatusCode res.1 ≠ StatusOK)
  ∧ (targetDirectory originalRoot originalRoot ".." = filepath.Dir originalRoot
     ∧ ∀ s0 info, originalRoot ≠ "/" →
         os_Stat (world s0) (filepath.Dir originalRoot) = inl info →
         IsDir info = true →
         changeDirectory originalRoot r originalRoot s0
         = (httpError "Invalid path" StatusBadRequest,
            afterCalls s0 [CallStat (filepath.Dir originalRoot)])).
Proof.
  intros Hpath Hcookie Hid Hdir Htrim res.
  assert (∀ s0, let res0 := changeDirectory originalRoot r originalRoot s0 in _)
    as Hcd by (intros s0; exact (changeDirectory_parent_of_root r s0 Htrim)).
  destruct (serve_cd_known originalRoot r s id sess Hpath Hcookie Hid)
    as (now & w & _ & Hserve).
  rewrite Hdir in Hserve. unfold res. rewrite Hserve.
  match goal with
  | |- context [changeDirectory originalRoot r originalRoot ?s1] =>
      destruct (Hcd s1) as [Hrej Hsess]
  end.
  split_and!; [| | |done|].
  - destruct Hsess as [->|(_ & id' & now' & _ & ->)]; simpl.
    + rewrite lookup_insert_eq. by eexists.
    + rewrite lookup_insert. case_decide; [by eexists|].
      rewrite lookup_insert_eq. by eexists.
  - intros id' Hne.
    destruct Hsess as [->|(_ & id'' & now' & Hcookie' & ->)]; simpl.
    + by rewrite lookup_insert_ne.
    + rewrite Hcookie in Hcookie'. simplify_eq.
      by rewrite !lookup_insert_ne.
  - intros Hne. by destruct (Hrej Hne) as (Hstatus & _).
  - intros s0 info Hne Hstat Hisdir.
    destruct (Hcd s0) as [Hrej0 _].
    destruct (Hrej0 Hne) as (_ & _ & Hinv). by eapply Hinv.
Qed.

End ParentOfRoot.

Lemma parent_of_root_rejected_witness :
  ∃ sess',
    sessions (serve sampleRoot (request "/cd" (Some sampleToken) [("dir", "/../")])
                sampleState).2 !! sampleToken = Some sess'
    ∧ CurrentDir sess' = sampleRoot.
Proof.
  apply (parent_of_root_rejected sampleRoot eq_refl eq_refl
           (request "/cd" (Some sampleToken) [("dir", "/../")]) sampleState
           sampleToken {| CurrentDir := "/srv/data"; LastAccess := 1000 |});
    vm_compute; reflexivity.
Defined.

(** ** What the handlers answer *)

Section Answers.

Context {W : Type} `{!OS W}.
Variable originalRoot : string.

Implicit Types s : State W.
Implicit Types r : Request.

(** *** The handlers that check before they touch the file system *)

(** When the check fails, [deleteFile] answers [Invalid path] and has made
    no call but readings of the working directory. *)
Lemma deleteFile_invalid_path r cur s :
  (isPathSafe originalRoot (filepath.Join [cur; QueryGet r "file"]) s).1 = false →
  ∃ cs, Forall (eq CallGetwd) cs
    ∧ deleteFile originalRoot r cur s
      = (httpError "Invalid path" StatusBadRequest, afterCalls s cs).
Proof.
  intros Hsafe. unfold deleteFile, bind.
  destruct (isPathSafe_run originalRoot (filepath.Join [cur; QueryGet r "file"]) s)
    as (safe & cs & E & Hcs).
  rewrite E in Hsafe |- *. simpl in Hsafe. subst safe. by exists cs.
Qed.

Lemma downloadFile_invalid_path r cur s :
  (isPathSafe originalRoot (filepath.Join [cur; QueryGet r "file"]) s).1 = false →
  ∃ cs, Forall (eq CallGetwd) cs
    ∧ downloadFile originalRoot r cur s
      = (httpError "Invalid path" StatusBadRequest, afterCalls s cs).
Proof.
  intros Hsafe. unfold downloadFile, bind.
  destruct (isPathSafe_run originalRoot (filepath.Join [cur; QueryGet r "file"]) s)
    as (safe & cs & E & Hcs).
  rewrite E in Hsafe |- *. simpl in Hsafe. subst safe. by exists cs.
Qed.

Lemma uploadFile_invalid_path r cur s form handler :
  MultipartForm r = Some form → FormFile form "file" = Some handler →
  (isPathSafe originalRoot (filepath.Join [cur; Filename handler]) s).1 = false →
  ∃ cs, Forall (eq CallGetwd) cs
    ∧ uploadFile originalRoot r cur s
      = (httpError "Invalid path" StatusBadRequest, afterCalls s cs).
Proof.
  intros Hform Hfile Hsafe. unfold uploadFile. rewrite Hform, Hfile. unfold bind.
  destruct (isPathSafe_run originalRoot (filepath.Join [cur; Filename handler]) s)
    as (safe & cs & E & Hcs).
  rewrite E in Hsafe |- *. simpl in Hsafe. subst safe. by exists cs.
Qed.

Lemma createDirectory_invalid_path r cur s :
  strings.Trim (QueryGet r "dir") dirCutset ≠ EmptyString →
  (isPathSafe originalRoot
     (filepath.Clean
        (filepath.Join [cur; strings.Trim (QueryGet r "dir") dirCutset])) s).1 = false →
  ∃ cs, Forall (eq CallGetwd) cs
    ∧ createDirectory originalRoot r cur s
      = (httpError "Invalid path" StatusBadRequest, afterCalls s cs).
Proof.
  intros Hname%String.eqb_neq Hsafe. unfold createDirectory. rewrite Hname.
  unfold bind.
  destruct (isPathSafe_run originalRoot
              (filepath.Clean
                 (filepath.Join [cur; strings.Trim (QueryGet r "dir") dirCutset])) s)
    as (safe & cs & E & Hcs).
  rewrite E in Hsafe |- *. simpl in Hsafe. subst safe. by exists cs.
Qed.

(** [changeDirectory] does not: once the name is not empty, the first call
    it makes examines the candidate, before any check. *)
Lemma changeDirectory_stats_first r cur s :
  strings.Trim (QueryGet r "dir") dirCutset ≠ EmptyString →
  ∃ cs,
    calls (changeDirectory originalRoot r cur s).2
    = calls s
      ++ CallStat (targetDirectory originalRoot cur
                     (strings.Trim (QueryGet r "dir") dirCutset)) :: cs.
Proof.
  intros Hname.
  destruct (changeDirectory_outcome originalRoot r cur s)
    as [Hempty
       |newDir err ->
       |newDir info ->
       |newDir info cs ->
       |newDir info cs err w ->
       |newDir info cs w ->
       |newDir info cs w id now w' ->]; simpl; [done|by eexists..].
Qed.

(** *** A directory change that succeeds *)

(** C4 (amended).  A directory change answered with status 200 has moved
    the working directory of the server process to the new directory
    ([os.Chdir], the last call it makes) and has then assigned the session
    of the request's cookie, with the new directory and the time read after
    the move.  The calls made are the examination of the candidate,
    readings of the working directory by the check, and the move: none of
    them creates, writes or removes a file or a directory. *)
Theorem changeDirectory_success r cur s :
  StatusCode (changeDirectory originalRoot r cur s).1 = StatusOK →
  let newDir :=
    targetDirectory originalRoot cur (strings.Trim (QueryGet r "dir") dirCutset) in
  ∃ id now w w' cs,
    RequestCookie r "session_id" = Some id
    ∧ os_Chdir (world s) newDir = (None, w)
    ∧ time_Now w = (now, w')
    ∧ Forall (eq CallGetwd) cs
    ∧ Forall (fun c => mutatesFiles c = false)
        (CallStat newDir :: cs ++ [CallChdir newDir])
    ∧ changeDirectory originalRoot r cur s
      = (httpOK ("Directory changed to " +:+ newDir),
         {| sessions :=
              <[id := {| CurrentDir := newDir; LastAccess := now |}]> (sessions s);
            world := w';
            calls := calls s ++ CallStat newDir :: cs ++ [CallChdir newDir] |}).
Proof.
  intros Hstatus newDir.
  rewrite (surjective_pairing (changeDirectory originalRoot r cur s)).
  destruct (changeDirectory_outcome originalRoot r cur s)
    as [Hempty
       |newDir' err Hnew Hstat
       |newDir' info Hnew Hstat Hdir
       |newDir' info cs Hnew Hstat Hdir Hsafe Hcs
       |newDir' info cs err w Hnew Hstat Hdir Hsafe Hcs Hchdir
       |newDir' info cs w Hnew Hstat Hdir Hsafe Hcs Hchdir Hcookie
       |newDir' info cs w id now w' Hnew Hstat Hdir Hsafe Hcs Hchdir Hcookie Hnow];
    try discriminate Hstatus.
  - by destruct (IsNotExist err).
  - subst newDir'. exists id, now, w, w', cs. split_and!; try done.
    constructor; [done|]. apply Forall_app. split; [|by repeat constructor].
    eapply Forall_impl; [exact Hcs|]. by intros c <-.
Qed.

(** *** The assignment that ends a directory change *)

(** C6 (amended).  The commit step of [/cd] assigns the session of the
    cookie's key: it stores the new directory and the time just read under
    the key, whether or not the key was in the map before, so that a key
    that is no longer there is inserted again.  No other entry changes. *)
Theorem commit_assigns_session r cur s (id : string) :
  RequestCookie r "session_id" = Some id →
  StatusCode (changeDirectory originalRoot r cur s).1 = StatusOK →
  let newDir :=
    targetDirectory originalRoot cur (strings.Trim (QueryGet r "dir") dirCutset) in
  let s' := (changeDirectory originalRoot r cur s).2 in
  (∃ now,
     sessions s' !! id = Some {| CurrentDir := newDir; LastAccess := now |}
     ∧ sessions s'
       = <[id := {| CurrentDir := newDir; LastAccess := now |}]> (sessions s))
  ∧ (∀ id', id' ≠ id → sessions s' !! id' = sessions s !! id')
  ∧ (∀ key dir s0,
       sessions (commitDirectory key dir s0).2
       = <[key := {| CurrentDir := dir; LastAccess := (time_Now (world s0)).1 |}]>
           (sessions s0)).
Proof.
  intros Hcookie Hstatus newDir s'. unfold s'.
  split_and!.
  - destruct (changeDirectory_outcome originalRoot r cur s)
      as [Hempty
         |newDir' err Hnew Hstat
         |newDir' info Hnew Hstat Hdir
         |newDir' info cs Hnew Hstat Hdir Hsafe Hcs
         |newDir' info cs err w Hnew Hstat Hdir Hsafe Hcs Hchdir
         |newDir' info cs w Hnew Hstat Hdir Hsafe Hcs Hchdir Hcookie'
         |newDir' info cs w id' now w' Hnew Hstat Hdir Hsafe Hcs Hchdir Hcookie' Hnow];
      try discriminate Hstatus.
    + by destruct (IsNotExist err).
    + rewrite Hcookie in Hcookie'. simplify_eq. exists now. simpl.
      by rewrite lookup_insert_eq.
  - intros id' Hne.
    destruct (changeDirectory_outcome originalRoot r cur s)
      as [| | | | | |newDir' info cs w id'' now w' _ _ _ _ _ _ Hcookie' _];
      simpl; try done.
    rewrite Hcookie in Hcookie'. simplify_eq. by rewrite lookup_insert_ne.
  - intros key dir s0. unfold commitDirectory, bind, Now, storeSession.
    by destruct (time_Now (world s0)) as [now w].
Qed.

(** *** Failures of [os.Mkdir] and [os.Remove] *)

(** C8 (amended).  When the target of a directory creation passes the
    check and [os.Mkdir] fails, for whatever reason, the answer is status
    500 with [Error creating directory]; a target that exists already is
    one such failure. *)
Theorem createDirectory_failure r cur s (err : OSError) (w : W) :
  let dirName := strings.Trim (QueryGet r "dir") dirCutset in
  let dirPath := filepath.Clean (filepath.Join [cur; dirName]) in
  dirName ≠ EmptyString →
  (isPathSafe originalRoot dirPath s).1 = true →
  os_Mkdir (world s) dirPath 493 = (Some err, w) →
  (createDirectory originalRoot r cur s).1
  = httpError "Error creating directory" StatusInternalServerError
  ∧ StatusCode (createDirectory originalRoot r cur s).1 = 500.
Proof.
  intros dirName dirPath Hname%String.eqb_neq Hsafe Hmkdir.
  unfold createDirectory. fold dirName. rewrite Hname. fold dirPath. unfold bind.
  destruct (isPathSafe_run originalRoot dirPath s) as (safe & cs & E & Hcs).
  rewrite E in Hsafe |- *. simpl in Hsafe. subst safe. simpl.
  unfold Mkdir; simpl. by rewrite Hmkdir.
Qed.

(** C9 (amended).  When the target of a deletion passes the check and
    [os.Remove] fails, the answer is status 500 with [Error deleting file]
    whatever the error: two failed deletions get the same answer, be the
    file missing or the removal not permitted. *)
Theorem deleteFile_failure r1 cur1 s1 r2 cur2 s2 (err1 err2 : OSError) (w1 w2 : W) :
  let filePath1 := filepath.Join [cur1; QueryGet r1 "file"] in
  let filePath2 := filepath.Join [cur2; QueryGet r2 "file"] in
  (isPathSafe originalRoot filePath1 s1).1 = true →
  (isPathSafe originalRoot filePath2 s2).1 = true →
  os_Remove (world s1) filePath1 = (Some err1, w1) →
  os_Remove (world s2) filePath2 = (Some err2, w2) →
  (deleteFile originalRoot r1 cur1 s1).1
  = httpError "Error deleting file" StatusInternalServerError
  ∧ (deleteFile originalRoot r2 cur2 s2).1 = (deleteFile originalRoot r1 cur1 s1).1.
Proof.
  intros filePath1 filePath2 Hsafe1 Hsafe2 Hrm1 Hrm2.
  assert (∀ r cur s err w,
            (isPathSafe originalRoot (filepath.Join [cur; QueryGet r "file"]) s).1 = true →
            os_Remove (world s) (filepath.Join [cur; QueryGet r "file"]) = (Some err, w) →
            (deleteFile originalRoot r cur s).1
            = httpError "Error deleting file" StatusInternalServerError) as Hone.
  { intros r cur s err w Hsafe Hrm. unfold deleteFile, bind.
    set (filePath := filepath.Join [cur; QueryGet r "file"]) in *.
    destruct (isPathSafe_run originalRoot filePath s) as (safe & cs & E & Hcs).
    rewrite E in Hsafe |- *. simpl in Hsafe. subst safe. simpl.
    unfold Remove; simpl. by rewrite Hrm. }
  by rewrite (Hone _ _ _ _ _ Hsafe1 Hrm1), (Hone _ _ _ _ _ Hsafe2 Hrm2).
Qed.

End Answers.

(** ** Expiry, re-creation and the race of the wrapper *)

Section Lifecycle.

Context {W : Type} `{!OS W}.
Variable originalRoot : string.

Implicit Types s : State W.
Implicit Types r : Request.

(** C7.  A pass of the sweep removes exactly the sessions whose last access
    lies more than five minutes (300 000 000 000 ns) before the clock
    reading made for them, and keeps every other session as it is; a
    session removed that way is unknown afterwards.  A request whose cookie
    names a key that is not in the map gets no error: a session at the root
    is stored under a newly generated key (sixteen random bytes in
    hexadecimal), the key is sent back in a [session_id] cookie, and the
    handler runs on the root. *)
Theorem sweep_and_recreation (clock : string → time.Time)
    (fn : Handler W) r s (value : string) :
  RequestCookie r "session_id" = Some value →
  sessions s !! value = None →
  (∀ (m : gmap string Session) id,
     sweepSessions clock m !! id
     = match m !! id with
       | Some sess =>
           if bool_decide (clock id - LastAccess sess > 300000000000)
           then None else Some sess
       | None => None
       end)
  ∧ (∀ s0 sess, sessions s0 !! value = Some sess →
       time.Since (clock value) (LastAccess sess) > 5 * time.Minute →
       sessions (cleanupPass clock s0).2 !! value = None)
  ∧ ∃ bytes w1 now w c,
      rand_Read (world s) 16 = (bytes, w1)
      ∧ time_Now w1 = (now, w)
      ∧ Name c = "session_id" ∧ Value c = hex.EncodeToString bytes
      ∧ withSession originalRoot fn r s
        = let res :=
            fn r originalRoot
               {| sessions :=
                    <[hex.EncodeToString bytes :=
                        {| CurrentDir := originalRoot; LastAccess := now |}]>
                      (sessions s);
                  world := w; calls := calls s |} in
          (withCookie (Some c) res.1, res.2).
Proof.
  intros Hcookie Hunknown. split_and!.
  - intros m id. apply sweepSessions_lookup.
  - intros s0 sess Hid Hexp. simpl. rewrite sweepSessions_lookup, Hid.
    apply expired_iff in Hexp. by rewrite bool_decide_true.
  - destruct (withSession_run originalRoot fn r s)
      as (id & cookie & sess & w & Hres & Hrun).
    destruct Hres as [old Hcookie' Hold _ _ _
                     |bytes w1 c _ Hrand -> Hnow Hcur -> Hname Hvalue].
    { rewrite Hcookie in Hcookie'. simplify_eq. }
    exists bytes, w1, (LastAccess sess), w, c. split_and!; [done..|].
    rewrite Hrun, Hcur. by destruct sess as [cur last]; simpl in *; subst.
Qed.

(** C10.  In the wrapper the session is read in a second critical section,
    after the one that created or refreshed it.  Right after the first one
    the key is in the map; when the critical sections other goroutines run
    in between (a sweep, a [/quit] with the same cookie) leave the key out
    of the map, the read yields the zero [Session], and the handler is
    called with the empty string as its current directory, which is not the
    root, and runs on from there. *)
Theorem handler_runs_on_zero_session (others : M W unit) (fn : Handler W)
    r s (id : string) (cookie : option Cookie) (s1 : State W) :
  resolveSession originalRoot r s = ((id, cookie), s1) →
  sessions (others s1).2 !! id = None →
  is_Some (sessions s1 !! id)
  ∧ sessions (others s1).2 !!! id = zeroSession
  ∧ withSessionInterleaved originalRoot others fn r s
    = (let res := fn r EmptyString (others s1).2 in (withCookie cookie res.1, res.2))
  ∧ (filepath.IsAbs originalRoot = true → EmptyString ≠ originalRoot).
Proof.
  intros Hresolve Hgone.
  assert (sessions (others s1).2 !!! id = zeroSession) as Hzero.
  { by rewrite lookup_total_alt, Hgone. }
  split_and!; [|done| |].
  - destruct (resolveSession_run originalRoot r s)
      as (id' & cookie' & sess & w & E & _).
    rewrite Hresolve in E. injection E as -> -> ->. simpl.
    rewrite lookup_insert_eq. by eexists.
  - unfold withSessionInterleaved, bind. rewrite Hresolve.
    destruct (others s1) as [[] s2]; simpl in *.
    unfold readSession. rewrite Hzero; simpl.
    by destruct (fn r EmptyString s2).
  - intros Habs <-. done.
Qed.

End Lifecycle.

(** ** The claims on the sample tree *)

(** C2 (the code at the failing input).  The root is [/srv/data] and
    [/srv/data2] is a directory beside it.  A session is created by a first
    request, then asks [/cd] for [../data2]: the candidate [/srv/data2]
    passes [isPathSafe], the change is committed, and the session holds a
    directory that is neither the root nor below it. *)
Theorem session_escapes_to_sibling :
  let s' :=
    (serve sampleRoot (request "/cd" (Some sampleToken) [("dir", "../data2")])
       sampleState).2 in
  reachable sampleRoot sampleFS s'
  ∧ sessions s' !! sampleToken
    = Some {| CurrentDir := "/srv/data2"; LastAccess := 1002 |}
  ∧ (isPathSafe sampleRoot "/srv/data2" s').1 = true
  ∧ isWithinRoot (filepath.Clean "/srv/data2") sampleRoot = false.
Proof.
  split_and!; [|vm_compute; reflexivity..].
  eapply reachable_step; [apply sampleState_reachable|apply step_serve].
Qed.

(** C3 (the code at the failing input).  From the root [/srv/data], [/cd]
    with [../../etc] is answered [Invalid path], but only after the
    candidate [/etc], which fails the check, has been examined with
    [os.Stat]; and with [../../nowhere] the candidate, which fails the
    check as well, is examined and the answer is [Directory not found]: the
    check is never reached, and the answer tells that nothing of that name
    exists outside the root. *)
Theorem changeDirectory_stats_before_check :
  (isPathSafe sampleRoot "/etc" sampleState).1 = false
  ∧ changeDirectory sampleRoot (request "/cd" (Some sampleToken) [("dir", "../../etc")])
      "/srv/data" sampleState
    = (httpError "Invalid path" StatusBadRequest,
       afterCalls sampleState [CallStat "/etc"])
  ∧ (isPathSafe sampleRoot "/nowhere" sampleState).1 = false
  ∧ changeDirectory sampleRoot
      (request "/cd" (Some sampleToken) [("dir", "../../nowhere")])
      "/srv/data" sampleState
    = (httpError "Directory not found" StatusNotFound,
       afterCalls sampleState [CallStat "/nowhere"]).
Proof. split_and!; vm_compute; reflexivity. Qed.

(** C4 (as stated, refuted).  A directory change into [foo] succeeds and
    the working directory of the process, [/home/u] before, is
    [/srv/data/foo] afterwards. *)
Lemma navigation_moves_the_process :
  let res :=
    changeDirectory sampleRoot (request "/cd" (Some sampleToken) [("dir", "foo")])
      "/srv/data" sampleState in
  StatusCode res.1 = StatusOK
  ∧ os_Getwd (world sampleState) = inl "/home/u"
  ∧ os_Getwd (world res.2) = inl "/srv/data/foo"
  ∧ os_Getwd (world res.2) ≠ os_Getwd (world sampleState).
Proof. split_and!; [vm_compute; reflexivity..|vm_compute; discriminate]. Qed.

Lemma changeDirectory_success_witness :
  ∃ id now,
    sessions (changeDirectory sampleRoot
                (request "/cd" (Some sampleToken) [("dir", "foo")])
                "/srv/data" sampleState).2 !! id
    = Some {| CurrentDir := "/srv/data/foo"; LastAccess := now |}.
Proof.
  destruct (changeDirectory_success sampleRoot
              (request "/cd" (Some sampleToken) [("dir", "foo")])
              "/srv/data" sampleState)
    as (id & now & w & w' & cs & _ & _ & _ & _ & _ & ->);
    [vm_compute; reflexivity|].
  exists id, now. simpl. by rewrite lookup_insert_eq.
Defined.

(** C6 (as stated, refuted).  The key [stale] is not in the map; the
    assignment puts it there.  A [/cd] request carrying [stale] as its
    cookie does so: the wrapper creates a session under a new key, and the
    handler assigns the session of the cookie it reads from the request. *)
Lemma commitDirectory_inserts_missing :
  sessions sampleState !! "stale" = None
  ∧ sessions (commitDirectory "stale" "/srv/data/foo" sampleState).2 !! "stale"
    = Some {| CurrentDir := "/srv/data/foo"; LastAccess := 1001 |}
  ∧ sessions (commitDirectory "stale" "/srv/data/foo" sampleState).2
    ≠ sessions sampleState
  ∧ sessions (serve sampleRoot (request "/cd" (Some "stale") [("dir", "foo")])
                sampleState).2 !! "stale"
    = Some {| CurrentDir := "/srv/data/foo"; LastAccess := 1002 |}.
Proof.
  split_and!; [vm_compute; reflexivity..| |vm_compute; reflexivity].
  intros E. apply (f_equal (fun m => m !! "stale")) in E.
  vm_compute in E. discriminate.
Qed.

Lemma commit_assigns_session_witness :
  ∃ now,
    sessions (changeDirectory sampleRoot
                (request "/cd" (Some "stale") [("dir", "foo")])
                "/srv/data" sampleState).2 !! "stale"
    = Some {| CurrentDir := "/srv/data/foo"; LastAccess := now |}.
Proof.
  destruct (commit_assigns_session sampleRoot
              (request "/cd" (Some "stale") [("dir", "foo")])
              "/srv/data" sampleState "stale")
    as ((now & Hlookup & _) & _); [vm_compute; reflexivity..|].
  by exists now.
Defined.

Lemma sweep_and_recreation_witness :
  ∃ c, Value c = "02000000000000000000000000000000"
    ∧ (withSession sampleRoot listFiles (request "/files" (Some "stale") [])
         sampleState).1.(SetCookie) = [c].
Proof.
  destruct (sweep_and_recreation sampleRoot (fun _ => 0) listFiles
              (request "/files" (Some "stale") []) sampleState "stale")
    as (_ & _ & bytes & w1 & now & w & c & Hrand & Hnow & _ & Hvalue & ->);
    [vm_compute; reflexivity..|].
  exists c. split.
  - rewrite Hvalue. vm_compute in Hrand. by injection Hrand as <- _.
  - simpl. unfold listFiles, bind, CombinedOutput, ret.
    by destruct (exec_CombinedOutput _ _ _) as [[output [msg|]] w2].
Defined.

(** C8 (as stated, refuted).  [foo] exists under the root; creating it
    again is answered with status 500, not 400. *)
Lemma createDirectory_existing_is_500 :
  let res :=
    createDirectory sampleRoot (request "/mkdir" (Some sampleToken) [("dir", "foo")])
      "/srv/data" sampleState in
  os_Stat (world sampleState) "/srv/data/foo" = inl {| IsDir := true; Size := 4096 |}
  ∧ os_Mkdir (world sampleState) "/srv/data/foo" 493 = (Some EEXIST, world sampleState)
  ∧ res.1 = httpError "Error creating directory" StatusInternalServerError
  ∧ StatusCode res.1 ≠ StatusBadRequest.
Proof. split_and!; [vm_compute; reflexivity..|vm_compute; discriminate]. Qed.

Lemma createDirectory_failure_witness :
  StatusCode
    (createDirectory sampleRoot (request "/mkdir" (Some sampleToken) [("dir", "foo")])
       "/srv/data" sampleState).1 = 500.
Proof.
  apply (createDirectory_failure sampleRoot
           (request "/mkdir" (Some sampleToken) [("dir", "foo")])
           "/srv/data" sampleState EEXIST (world sampleState));
    [vm_compute; discriminate|vm_compute; reflexivity..].
Defined.

(** C9 (as stated, refuted).  Deleting a file that does not exist and
    deleting a file from a directory that may not be written to fail for
    different reasons ([ENOENT], [EACCES]) and get the same answer. *)
Lemma deleteFile_failures_alike :
  let missing := request "/delete" (Some sampleToken) [("file", "nothere")] in
  let denied := request "/delete" (Some sampleToken) [("file", "locked/b.txt")] in
  (os_Remove (world sampleState) "/srv/data/nothere").1 = Some ENOENT
  ∧ (os_Remove (world sampleState) "/srv/data/locked/b.txt").1 = Some EACCES
  ∧ (deleteFile sampleRoot missing "/srv/data" sampleState).1
    = (deleteFile sampleRoot denied "/srv/data" sampleState).1.
Proof. split_and!; vm_compute; reflexivity. Qed.

Lemma deleteFile_failure_witness :
  (deleteFile sampleRoot (request "/delete" (Some sampleToken) [("file", "locked/b.txt")])
     "/srv/data" sampleState).1
  = (deleteFile sampleRoot (request "/delete" (Some sampleToken) [("file", "nothere")])
       "/srv/data" sampleState).1.
Proof.
  apply (deleteFile_failure sampleRoot
           (request "/delete" (Some sampleToken) [("file", "nothere")])
           "/srv/data" sampleState
           (request "/delete" (Some sampleToken) [("file", "locked/b.txt")])
           "/srv/data" sampleState
           ENOENT EACCES (world sampleState) (world sampleState));
    vm_compute; reflexivity.
Defined.

Lemma handler_runs_on_zero_session_witness :
  withSessionInterleaved sampleRoot (deleteSession sampleToken) listFiles
    (request "/files" (Some sampleToken) []) sampleState
  = (let res :=
       listFiles (request "/files" (Some sampleToken) []) EmptyString
         (deleteSession sampleToken
            (resolveSession sampleRoot (request "/files" (Some sampleToken) [])
               sampleState).2).2 in
     (withCookie None res.1, res.2)).
Proof.
  apply (handler_runs_on_zero_session sampleRoot (deleteSession sampleToken) listFiles
           (request "/files" (Some sampleToken) []) sampleState sampleToken None
           (resolveSession sampleRoot (request "/files" (Some sampleToken) [])
              sampleState).2);
    vm_compute; reflexivity.
Defined.

(** The invariant of C2 is one of requests served one after the other.
    Under the interleaving of C10 the handler runs on the empty string, and
    [/cd] then stores a relative directory, which passes the check from the
    working directory of that moment and fails it from another one. *)
Example interleaved_commit_is_relative :
  let res :=
    withSessionInterleaved sampleRoot (deleteSession sampleToken)
      (changeDirectory sampleRoot)
      (request "/cd" (Some sampleToken) [("dir", "../../srv/data/foo")])
      sampleState in
  sessions res.2 !! sampleToken
  = Some {| CurrentDir := "../../srv/data/foo"; LastAccess := 1002 |}
  ∧ os_Getwd (world res.2) = inl "/srv/data/foo"
  ∧ (isPathSafe sampleRoot "../../srv/data/foo" sampleState).1 = true
  ∧ (isPathSafe sampleRoot "../../srv/data/foo" res.2).1 = false.
Proof. split_and!; vm_compute; reflexivity. Qed.

(** * Further properties of the server *)

(** ** Sessions across requests *)

Section Sessions.

Context {W : Type} `{!OS W}.
Variable originalRoot : string.

Implicit Types s : State W.
Implicit Types r : Request.

(** No handler sets a cookie: the answers are built by [http.Error] and by
    writes of a body. *)
Lemma handler_sets_no_cookie path (fn : Handler W) r cur s :
  route originalRoot path = Some fn → SetCookie (fn r cur s).1 = [].
Proof.
  intros Hroute. unfold route in Hroute. repeat case_match; simplify_eq.
  - unfold listFiles, bind, CombinedOutput, ret.
    by destruct (exec_CombinedOutput _ _ _) as [[output [msg|]] w].
  - unfold uploadFile. destruct (MultipartForm r) as [form|]; [|done].
    destruct (FormFile form "file") as [handler|]; [|done]. unfold bind.
    destruct (isPathSafe_run originalRoot (filepath.Join [cur; Filename handler]) s)
      as (safe & cs & -> & _).
    destruct safe; [|done]. unfold Create, Copy, ret; simpl.
    destruct (os_Create _ _) as [[err|] w]; [done|]. simpl.
    by destruct (io_Copy _ _ _) as [[err|] w'].
  - unfold downloadFile, bind.
    destruct (isPathSafe_run originalRoot (filepath.Join [cur; QueryGet r "file"]) s)
      as (safe & cs & -> & _).
    destruct safe; [|done]. unfold Open, ret; simpl.
    destruct (os_Open _ _) as [file|err]; [|done].
    by destruct (fileStat file).
  - unfold deleteFile, bind.
    destruct (isPathSafe_run originalRoot (filepath.Join [cur; QueryGet r "file"]) s)
      as (safe & cs & -> & _).
    destruct safe; [|done]. unfold Remove, ret; simpl.
    by destruct (os_Remove _ _) as [[err|] w].
  - destruct (changeDirectory_outcome originalRoot r cur s)
      as [|newDir err| | | | |]; try done.
    by destruct (IsNotExist err).
  - unfold createDirectory.
    destruct (String.eqb _ EmptyString); [done|]. unfold bind.
    destruct (isPathSafe_run originalRoot
                (filepath.Clean
                   (filepath.Join [cur; strings.Trim (QueryGet r "dir") dirCutset])) s)
      as (safe & cs & -> & _).
    destruct safe; [|done]. unfold Mkdir, ret; simpl.
    by destruct (os_Mkdir _ _ _) as [[err|] w].
  - unfold handleQuit, bind. by destruct (RequestCookie r "session_id").
Qed.

(** The handlers of the routes that [keepsDirectory] names leave the map as
    it is. *)
Lemma handler_keeps_sessions path (fn : Handler W) r cur s :
  route originalRoot path = Some fn → keepsDirectory path = true →
  sessions (fn r cur s).2 = sessions s.
Proof.
  intros Hroute Hkeeps. unfold route in Hroute. unfold keepsDirectory in Hkeeps.
  simpl in Hkeeps.
  repeat match type of Hroute with
         | context [String.eqb path ?q] =>
             destruct (String.eqb_spec path q) as [->|?]
         end; simplify_eq; try discriminate Hkeeps.
  - apply listFiles_sessions.
  - apply uploadFile_sessions.
  - apply downloadFile_sessions.
  - apply deleteFile_sessions.
  - apply createDirectory_sessions.
Qed.

(** A handler changes no session but the one of the request's cookie. *)
Lemma handler_other_sessions path (fn : Handler W) r cur s id id' :
  route originalRoot path = Some fn →
  RequestCookie r "session_id" = Some id → id' ≠ id →
  sessions (fn r cur s).2 !! id' = sessions s !! id'.
Proof.
  intros Hroute Hcookie Hne. unfold route in Hroute.
  repeat case_match; simplify_eq.
  - by rewrite listFiles_sessions.
  - by rewrite uploadFile_sessions.
  - by rewrite downloadFile_sessions.
  - by rewrite deleteFile_sessions.
  - destruct (changeDirectory_outcome originalRoot r cur s)
      as [| | | | | |newDir info cs w id'' now w' _ _ _ _ _ _ Hcookie' _];
      simpl; try done.
    rewrite Hcookie in Hcookie'. simplify_eq. by rewrite lookup_insert_ne.
  - by rewrite createDirectory_sessions.
  - rewrite handleQuit_sessions, Hcookie. by rewrite lookup_delete_ne.
Qed.

(** A request that carries the key of a session. *)
Lemma serve_known (fn : Handler W) r s id sess :
  route originalRoot (URLPath r) = Some fn →
  RequestCookie r "session_id" = Some id →
  sessions s !! id = Some sess →
  ∃ now w,
    time_Now (world s) = (now, w)
    ∧ serve originalRoot r s
      = fn r (CurrentDir sess)
          {| sessions :=
               <[id := {| CurrentDir := CurrentDir sess; LastAccess := now |}]>
                 (sessions s);
             world := w; calls := calls s |}.
Proof.
  intros Hroute Hcookie Hid. unfold serve. rewrite Hroute.
  unfold withSession, bind, resolveSession. rewrite Hcookie.
  unfold bind, lookupSession. rewrite Hid.
  unfold bind, Now, storeSession, ret, readSession; simpl.
  destruct (time_Now (world s)) as [now w]; simpl.
  exists now, w. split; [done|].
  rewrite lookup_total_insert_eq; simpl.
  by destruct (fn r _ _) as [[] ?].
Qed.

(** A request that carries no cookie, or a value that is no key of the
    map. *)
Lemma serve_unknown (fn : Handler W) r s :
  route originalRoot (URLPath r) = Some fn →
  (RequestCookie r "session_id" = None
   ∨ ∃ value, RequestCookie r "session_id" = Some value
              ∧ sessions s !! value = None) →
  ∃ bytes w1 now w c,
    rand_Read (world s) 16 = (bytes, w1)
    ∧ time_Now w1 = (now, w)
    ∧ Name c = "session_id" ∧ Value c = hex.EncodeToString bytes
    ∧ serve originalRoot r s
      = let res :=
          fn r originalRoot
             {| sessions :=
                  <[hex.EncodeToString bytes :=
                      {| CurrentDir := originalRoot; LastAccess := now |}]>
                    (sessions s);
                world := w; calls := calls s |} in
        (withCookie (Some c) res.1, res.2).
Proof.
  intros Hroute Hunknown. unfold serve. rewrite Hroute.
  destruct (withSession_run originalRoot fn r s)
    as (id & cookie & sess & w & Hres & Hrun).
  destruct Hres as [old Hcookie Hold _ _ _
                   |bytes w1 c _ Hrand -> Hnow Hcur -> Hname Hvalue].
  { destruct Hunknown as [Hnone|(value & Hsome & Hvalue)]; congruence. }
  exists bytes, w1, (LastAccess sess), w, c. split_and!; [done..|].
  rewrite Hrun, Hcur. by destruct sess as [cur last]; simpl in *; subst.
Qed.

(** X1.  Sessions do not interfere: a request that carries the key of a
    session, on whatever route, leaves every other entry of the map as it
    is. *)
Theorem request_leaves_other_sessions r s id sess id' :
  RequestCookie r "session_id" = Some id →
  sessions s !! id = Some sess →
  id' ≠ id →
  sessions (serve originalRoot r s).2 !! id' = sessions s !! id'.
Proof.
  intros Hcookie Hid Hne.
  destruct (route originalRoot (URLPath r)) as [fn|] eqn:Hroute.
  - destruct (serve_known fn r s id sess Hroute Hcookie Hid) as (now & w & _ & ->).
    rewrite (handler_other_sessions _ fn r _ _ id id' Hroute Hcookie Hne). simpl.
    by rewrite lookup_insert_ne.
  - unfold serve. by rewrite Hroute.
Qed.

(** X2.  On the routes other than [/cd] and [/quit] a request that carries
    the key of a session keeps the directory of the session and sets its
    last access to the time read by the wrapper; no cookie is set; and the
    session outlives every pass of the sweep whose reading for it is at
    most five minutes later. *)
Theorem request_keeps_directory r s id sess :
  keepsDirectory (URLPath r) = true →
  RequestCookie r "session_id" = Some id →
  sessions s !! id = Some sess →
  ∃ now w,
    time_Now (world s) = (now, w)
    ∧ sessions (serve originalRoot r s).2
      = <[id := {| CurrentDir := CurrentDir sess; LastAccess := now |}]> (sessions s)
    ∧ SetCookie (serve originalRoot r s).1 = []
    ∧ ∀ clock, clock id - now ≤ 300000000000 →
        sweepSessions clock (sessions (serve originalRoot r s).2) !! id
        = Some {| CurrentDir := CurrentDir sess; LastAccess := now |}.
Proof.
  intros Hkeeps Hcookie Hid.
  assert (∃ fn, route originalRoot (URLPath r) = Some fn) as [fn Hroute].
  { unfold keepsDirectory in Hkeeps. simpl in Hkeeps. unfold route.
    repeat case_match; by eauto. }
  destruct (serve_known fn r s id sess Hroute Hcookie Hid) as (now & w & Hnow & Hserve).
  exists now, w. rewrite Hserve.
  rewrite (handler_keeps_sessions _ fn r _ _ Hroute Hkeeps).
  rewrite (handler_sets_no_cookie _ fn r _ _ Hroute). simpl.
  split_and!; [done..|].
  intros clock Hclock. apply sweepSessions_lookup_Some.
  by rewrite lookup_insert_eq.
Qed.

End Sessions.

(** ** Leaving, and arriving without a session *)

Section Arrivals.

Context {W : Type} `{!OS W}.
Variable originalRoot : string.

Implicit Types s : State W.
Implicit Types r : Request.

(** X3.  [/quit] with the key of a session answers [Connection closed],
    makes no call to the operating system and removes that session and no
    other; the next request that carries the same key is treated as one
    with an unknown key: its handler runs on the root, in a new session. *)
Theorem quit_forgets_session r s id sess :
  URLPath r = "/quit" →
  RequestCookie r "session_id" = Some id →
  sessions s !! id = Some sess →
  let res := serve originalRoot r s in
  res.1 = httpOK ("Connection closed" +:+ newline)
  ∧ sessions res.2 = delete id (sessions s)
  ∧ calls res.2 = calls s
  ∧ ∀ (fn : Handler W) r',
      route originalRoot (URLPath r') = Some fn →
      RequestCookie r' "session_id" = Some id →
      ∃ c s1,
        serve originalRoot r' res.2
        = (withCookie (Some c) (fn r' originalRoot s1).1, (fn r' originalRoot s1).2).
Proof.
  intros Hpath Hcookie Hid res.
  assert (route originalRoot (URLPath r) = Some handleQuit) as Hroute
    by by rewrite Hpath.
  destruct (serve_known originalRoot handleQuit r s id sess Hroute Hcookie Hid)
    as (now & w & _ & Hserve).
  unfold res. rewrite Hserve.
  unfold handleQuit, bind, deleteSession, ret. rewrite Hcookie. simpl.
  rewrite delete_insert_eq.
  split_and!; [done..|].
  intros fn r' Hroute' Hcookie'.
  edestruct (serve_unknown originalRoot fn r') as (bytes & w1 & now' & w' & c & _ & _ & _ & _ & ->);
    [done| |by eauto].
  right. exists id. split; [done|]. simpl. apply lookup_delete_eq.
Qed.


(** X5.  [/quit] without a cookie forgets nothing: the wrapper creates a
    session, the handler finds no cookie to delete, and the new session
    stays in the map. *)
Theorem quit_without_cookie_leaves_session r s :
  URLPath r = "/quit" →
  RequestCookie r "session_id" = None →
  ∃ bytes w1 now w,
    rand_Read (world s) 16 = (bytes, w1)
    ∧ time_Now w1 = (now, w)
    ∧ Body (serve originalRoot r s).1 = "Connection closed" +:+ newline
    ∧ sessions (serve originalRoot r s).2
      = <[hex.EncodeToString bytes :=
            {| CurrentDir := originalRoot; LastAccess := now |}]> (sessions s).
Proof.
  intros Hpath Hcookie.
  assert (route originalRoot (URLPath r) = Some handleQuit) as Hroute
    by by rewrite Hpath.
  destruct (serve_unknown originalRoot handleQuit r s Hroute (or_introl Hcookie))
    as (bytes & w1 & now & w & c & Hrand & Hnow & Hname & Hvalue & ->).
  exists bytes, w1, now, w.
  unfold handleQuit, bind, ret. rewrite Hcookie. by simpl.
Qed.

(** X6.  A directory change cannot be the first request of a client: with
    no cookie on the request, [changeDirectory] never answers with status
    200 and assigns no session, and when the candidate passes every test
    the working directory of the process has been moved before the answer,
    [Session error], is given.  The session the wrapper has just created
    stays at the root. *)
Theorem first_request_cannot_navigate r s :
  URLPath r = "/cd" →
  RequestCookie r "session_id" = None →
  (∃ bytes w1 now w,
     rand_Read (world s) 16 = (bytes, w1)
     ∧ time_Now w1 = (now, w)
     ∧ sessions (serve originalRoot r s).2
       = <[hex.EncodeToString bytes :=
             {| CurrentDir := originalRoot; LastAccess := now |}]> (sessions s))
  ∧ StatusCode (serve originalRoot r s).1 ≠ StatusOK
  ∧ ∀ cur s0,
      let res := changeDirectory originalRoot r cur s0 in
      sessions res.2 = sessions s0
      ∧ StatusCode res.1 ≠ StatusOK
      ∧ (∀ dir, CallChdir dir ∈ calls res.2 → CallChdir dir ∉ calls s0 →
           res.1 = httpError "Session error" StatusInternalServerError
           ∨ res.1 = httpError "Error changing directory" StatusInternalServerError).
Proof.
  intros Hpath Hcookie.
  assert (∀ cur s0,
            let res := changeDirectory originalRoot r cur s0 in
            sessions res.2 = sessions s0
            ∧ StatusCode res.1 ≠ StatusOK
            ∧ (∀ dir, CallChdir dir ∈ calls res.2 → CallChdir dir ∉ calls s0 →
                 res.1 = httpError "Session error" StatusInternalServerError
                 ∨ res.1 = httpError "Error changing directory"
                             StatusInternalServerError)) as Hcd.
  { intros cur s0 res. unfold res.
    destruct (changeDirectory_outcome originalRoot r cur s0)
      as [Hempty
         |newDir err Hnew Hstat
         |newDir info Hnew Hstat Hdir
         |newDir info cs Hnew Hstat Hdir Hsafe Hcs
         |newDir info cs err w Hnew Hstat Hdir Hsafe Hcs Hchdir
         |newDir info cs w Hnew Hstat Hdir Hsafe Hcs Hchdir Hcookie'
         |newDir info cs w id now w' Hnew Hstat Hdir Hsafe Hcs Hchdir Hcookie' Hnow];
      simpl.
    - split_and!; [done..|]. intros dir Hin Hnot. by destruct Hnot.
    - split_and!; [done|by destruct (IsNotExist err)|].
      intros dir Hin Hnot. apply elem_of_app in Hin as [Hin|Hin]; [done|].
      by apply list_elem_of_singleton in Hin.
    - split_and!; [done..|].
      intros dir Hin Hnot. apply elem_of_app in Hin as [Hin|Hin]; [done|].
      by apply list_elem_of_singleton in Hin.
    - split_and!; [done..|].
      intros dir Hin Hnot. apply elem_of_app in Hin as [Hin|Hin]; [done|].
      apply elem_of_cons in Hin as [Hin|Hin]; [done|].
      rewrite Forall_forall in Hcs. by specialize (Hcs _ Hin).
    - split_and!; auto.
    - split_and!; auto.
    - congruence. }
  split_and!; [| |done].
  - assert (route originalRoot (URLPath r) = Some (changeDirectory originalRoot))
      as Hroute by by rewrite Hpath.
    destruct (serve_unknown originalRoot _ r s Hroute (or_introl Hcookie))
      as (bytes & w1 & now & w & c & Hrand & Hnow & Hname & Hvalue & ->).
    exists bytes, w1, now, w. split_and!; [done..|]. simpl.
    by destruct (Hcd originalRoot
                   {| sessions :=
                        <[hex.EncodeToString bytes :=
                            {| CurrentDir := originalRoot; LastAccess := now |}]>
                          (sessions s);
                      world := w; calls := calls s |}) as [-> _].
  - assert (route originalRoot (URLPath r) = Some (changeDirectory originalRoot))
      as Hroute by by rewrite Hpath.
    destruct (serve_unknown originalRoot _ r s Hroute (or_introl Hcookie))
      as (bytes & w1 & now & w & c & Hrand & Hnow & Hname & Hvalue & ->).
    simpl.
    by destruct (Hcd originalRoot
                   {| sessions :=
                        <[hex.EncodeToString bytes :=
                            {| CurrentDir := originalRoot; LastAccess := now |}]>
                          (sessions s);
                      world := w; calls := calls s |}) as (_ & ? & _).
Qed.

End Arrivals.

(** ** Trimmed names *)

Section TrimFacts.

Implicit Types s t cutset : string.

Lemma TrimLeft_empty_iff s cutset :
  strings.TrimLeft s cutset = EmptyString ↔ allInCutset cutset s = true.
Proof.
  induction s as [|c s IH]; simpl; [done|].
  destruct (strings.inCutset cutset c); simpl; [done|]. split; discriminate.
Qed.

Lemma TrimRight_empty_iff s cutset :
  strings.TrimRight s cutset = EmptyString ↔ allInCutset cutset s = true.
Proof.
  induction s as [|c s IH]; simpl; [done|].
  destruct (strings.TrimRight s cutset) as [|d t].
  - destruct (strings.inCutset cutset c); simpl.
    + split; [intros _; by apply IH|done].
    + split; discriminate.
  - split; [discriminate|].
    intros [_ Hall]%andb_prop. apply IH in Hall. discriminate.
Qed.

(** What [TrimLeft] returns is empty or starts with a byte that is not in
    the cutset. *)
Lemma firstByte_TrimLeft s cutset c :
  firstByte (strings.TrimLeft s cutset) = Some c → strings.inCutset cutset c = false.
Proof.
  induction s as [|d s IH]; simpl; [done|].
  destruct (strings.inCutset cutset d) eqn:Hd; [done|].
  simpl. by intros [= <-].
Qed.

Lemma TrimLeft_fixed s cutset :
  (∀ c, firstByte s = Some c → strings.inCutset cutset c = false) →
  strings.TrimLeft s cutset = s.
Proof.
  destruct s as [|c s]; simpl; [done|]. intros H. by rewrite (H c eq_refl).
Qed.

Lemma firstByte_TrimRight s cutset :
  strings.TrimRight s cutset ≠ EmptyString →
  firstByte (strings.TrimRight s cutset) = firstByte s.
Proof.
  destruct s as [|c s]; simpl; [done|].
  destruct (strings.TrimRight s cutset); [|done].
  by destruct (strings.inCutset cutset c).
Qed.

(** What [TrimRight] returns is empty or ends with a byte that is not in
    the cutset. *)
Lemma lastByte_TrimRight s cutset c :
  lastByte (strings.TrimRight s cutset) = Some c → strings.inCutset cutset c = false.
Proof.
  induction s as [|d s IH]; simpl; [done|].
  destruct (strings.TrimRight s cutset) as [|e t].
  - destruct (strings.inCutset cutset d) eqn:Hd; simpl; [done|]. by intros [= <-].
  - intros Hlast. by apply IH.
Qed.

Lemma TrimRight_idempotent s cutset :
  strings.TrimRight (strings.TrimRight s cutset) cutset = strings.TrimRight s cutset.
Proof.
  induction s as [|c s IH]; simpl; [done|].
  destruct (strings.TrimRight s cutset) as [|d t] eqn:Ht.
  - destruct (strings.inCutset cutset c) eqn:Hc; simpl; [done|]. by rewrite Hc.
  - simpl in *. rewrite IH. done.
Qed.

Lemma Trim_empty_iff s cutset :
  strings.Trim s cutset = EmptyString ↔ allInCutset cutset s = true.
Proof.
  unfold strings.Trim. rewrite TrimRight_empty_iff. split.
  - intros Hall. apply TrimLeft_empty_iff.
    destruct (strings.TrimLeft s cutset) as [|c t] eqn:Ht; [done|].
    simpl in Hall. apply andb_prop in Hall as [Hc _].
    by rewrite (firstByte_TrimLeft s cutset c) in Hc by by rewrite Ht.
  - intros Hall%TrimLeft_empty_iff. by rewrite Hall.
Qed.

(** X7.  [strings.Trim] as the handlers use it: the trimmed name neither
    starts nor ends with a byte of the cutset, it is empty exactly when
    the name held nothing but bytes of the cutset, and trimming it again
    changes nothing. *)
Theorem Trim_shape s cutset :
  (∀ c, firstByte (strings.Trim s cutset) = Some c → strings.inCutset cutset c = false)
  ∧ (∀ c, lastByte (strings.Trim s cutset) = Some c → strings.inCutset cutset c = false)
  ∧ (strings.Trim s cutset = EmptyString ↔ allInCutset cutset s = true)
  ∧ strings.Trim (strings.Trim s cutset) cutset = strings.Trim s cutset.
Proof.
  unfold strings.Trim.
  assert (∀ c, firstByte (strings.TrimRight (strings.TrimLeft s cutset) cutset) = Some c →
               strings.inCutset cutset c = false) as Hfirst.
  { intros c Hc. apply (firstByte_TrimLeft s).
    rewrite <- (firstByte_TrimRight _ cutset); [done|].
    intros E. by rewrite E in Hc. }
  split_and!.
  - done.
  - intros c. apply lastByte_TrimRight.
  - apply Trim_empty_iff.
  - rewrite TrimLeft_fixed by done. apply TrimRight_idempotent.
Qed.

End TrimFacts.

Section Names.

Context {W : Type} `{!OS W}.
Variable originalRoot : string.

Implicit Types s : State W.
Implicit Types r : Request.

(** X8.  A [dir] parameter that is missing, empty or made of slashes,
    backslashes, spaces and double quotes only is refused by [/cd] and by
    [/mkdir] with status 400 and [Invalid directory name], before any call
    to the operating system and with the state as it was; and [/cd] gives
    that answer for no other parameter. *)
Theorem blank_directory_name r cur s :
  (allInCutset dirCutset (QueryGet r "dir") = true →
     changeDirectory originalRoot r cur s
     = (httpError "Invalid directory name" StatusBadRequest, s)
     ∧ createDirectory originalRoot r cur s
       = (httpError "Invalid directory name" StatusBadRequest, s))
  ∧ ((changeDirectory originalRoot r cur s).1
     = httpError "Invalid directory name" StatusBadRequest →
     allInCutset dirCutset (QueryGet r "dir") = true).
Proof.
  split.
  - intros Hall.
    assert (strings.Trim (QueryGet r "dir") dirCutset = EmptyString) as Htrim
      by by apply Trim_empty_iff.
    unfold changeDirectory, createDirectory. by rewrite Htrim.
  - intros Hresp. apply Trim_empty_iff.
    destruct (changeDirectory_outcome originalRoot r cur s)
      as [Hempty|newDir err| | | | |]; try done.
    by destruct (IsNotExist err).
Qed.

End Names.

(** ** More on paths *)

Section MorePaths.

Implicit Types p q e : string.
Implicit Types l out elems : list string.

Lemma elements_app p q :
  filepath.elements (p +:+ "/" +:+ q) = filepath.elements p ++ filepath.elements q.
Proof.
  induction p as [|c p IH]; [done|].
  simpl in *. rewrite IH. destruct (IsPathSeparator c); [done|].
  pose proof (elements_nonempty p).
  by destruct (filepath.elements p).
Qed.

Lemma cleanLoop_app rooted out l1 l2 :
  filepath.cleanLoop rooted out (l1 ++ l2)
  = filepath.cleanLoop rooted (filepath.cleanLoop rooted out l1) l2.
Proof.
  revert out; induction l1 as [|e l1 IH]; intros out; simpl; [done|].
  repeat case_match; by rewrite IH.
Qed.

Lemma IsAbs_app_nonempty p q :
  p ≠ EmptyString → filepath.IsAbs (p +:+ q) = filepath.IsAbs p.
Proof. by destruct p. Qed.

(** A separator at the end of a path is dropped by [Clean]. *)
Lemma Clean_trailing_separator p :
  p ≠ EmptyString → filepath.Clean (p +:+ "/") = filepath.Clean p.
Proof.
  intros Hp.
  assert (∀ rooted,
            filepath.cleanLoop rooted [] (filepath.elements (p +:+ "/"))
            = filepath.cleanLoop rooted [] (filepath.elements p)) as Hloop.
  { intros rooted.
    change (p +:+ "/") with (p +:+ "/" +:+ EmptyString).
    by rewrite elements_app, cleanLoop_app. }
  unfold filepath.Clean.
  rewrite IsAbs_app_nonempty, !Hloop by done.
  by destruct p.
Qed.

(** [filepath.Join] of a directory and the empty name. *)
Lemma Join_empty_name p :
  p ≠ EmptyString → filepath.Join [p; EmptyString] = filepath.Clean p.
Proof.
  intros Hp. unfold filepath.Join.
  rewrite (proj2 (String.eqb_neq p EmptyString) Hp).
  change (strings.Join [p; EmptyString] "/") with (p +:+ "/" +:+ EmptyString).
  change (p +:+ "/" +:+ EmptyString) with (p +:+ "/").
  by apply Clean_trailing_separator.
Qed.

(** *** [Clean] is idempotent *)

Lemma proper_dotdot_free e : proper e → e ≠ "..".
Proof. by intros (_ & _ & ? & _). Qed.

Lemma dotted_nil : dotted [].
Proof. by exists [], 0%nat. Qed.

Lemma dotted_cleanLoop out elems :
  dotted out → Forall sepFree elems →
  dotted (filepath.cleanLoop false out elems).
Proof.
  revert out; induction elems as [|e elems IH]; intros out Hout Helems; simpl; [done|].
  inversion_clear Helems as [|? ? He Helems'].
  destruct (String.eqb e "") eqn:E1; [by apply IH|].
  destruct (String.eqb e ".") eqn:E2; [by apply IH|].
  destruct (String.eqb e "..") eqn:E3.
  - apply String.eqb_eq in E3 as ->.
    destruct Hout as (l & n & -> & Hl).
    destruct l as [|top l'].
    + destruct n as [|n]; simpl.
      * apply IH; [|done]. by exists [], 1%nat.
      * apply IH; [|done]. by exists [], (S (S n)).
    + simpl. inversion_clear Hl as [|? ? Htop Hl'].
      apply proper_dotdot_free, String.eqb_neq in Htop as ->.
      apply IH; [|done]. by exists l', n.
  - apply IH; [|done]. destruct Hout as (l & n & -> & Hl).
    exists (e :: l), n. split; [done|]. constructor; [|done].
    apply String.eqb_neq in E1, E2, E3. by repeat split.
Qed.

Lemma cleanLoop_dots n k :
  filepath.cleanLoop false (repeat ".." k) (repeat ".." n) = repeat ".." (n + k).
Proof.
  revert k; induction n as [|n IH]; intros k; [done|].
  simpl. destruct k as [|k]; simpl.
  - change [".."] with (repeat ".." 1). rewrite (IH 1%nat).
    by rewrite Nat.add_0_r, Nat.add_1_r.
  - change (".." :: ".." :: repeat ".." k) with (repeat ".." (S (S k))).
    rewrite (IH (S (S k))).
    change (".." :: repeat ".." (n + S k)) with (repeat ".." (S (n + S k))).
    f_equal. lia.
Qed.

(** The loop run again on what it has written writes the same. *)
Lemma cleanLoop_dotted l n :
  Forall proper l →
  filepath.cleanLoop false [] (rev (l ++ repeat ".." n)) = l ++ repeat ".." n.
Proof.
  intros Hl. rewrite rev_app_distr, cleanLoop_app.
  assert (rev (repeat ".." n) = repeat ".." n) as ->.
  { induction n as [|n IH]; [done|]. simpl. rewrite IH.
    clear. induction n as [|n IH]; [done|]. simpl. by rewrite IH. }
  change (@nil string) with (repeat ".." 0) at 1.
  rewrite (cleanLoop_dots n 0). rewrite Nat.add_0_r.
  rewrite cleanLoop_proper by by apply Forall_rev.
  by rewrite rev_involutive.
Qed.

Lemma sepFree_dotted out : dotted out → Forall sepFree out.
Proof.
  intros (l & n & -> & Hl). apply Forall_app. split; [by apply proper_sepFree|].
  clear. induction n; by constructor.
Qed.

Lemma Join_unrooted e l :
  e ≠ EmptyString → sepFree e →
  strings.Join (e :: l) "/" ≠ EmptyString
  ∧ filepath.IsAbs (strings.Join (e :: l) "/") = false.
Proof.
  intros He Hsep. destruct e as [|c e]; [done|].
  unfold sepFree in Hsep; simpl in Hsep. apply orb_false_elim in Hsep as [Hc _].
  unfold IsPathSeparator in Hc.
  destruct l as [|e' l]; simpl; unfold filepath.IsAbs; simpl; by rewrite Hc.
Qed.

Lemma Clean_idempotent_unrooted p :
  filepath.IsAbs p = false →
  filepath.Clean (filepath.Clean p) = filepath.Clean p.
Proof.
  intros Hp.
  destruct (String.eqb p "") eqn:Hempty.
  { by apply String.eqb_eq in Hempty as ->. }
  assert (filepath.Clean p
          = match rev (filepath.cleanLoop false [] (filepath.elements p)) with
            | [] => "."
            | out => strings.Join out "/"
            end) as ->.
  { unfold filepath.Clean. rewrite Hempty, Hp. by destruct (rev _). }
  pose proof (dotted_cleanLoop [] (filepath.elements p) dotted_nil
                (sepFree_elements p)) as Hshape.
  destruct Hshape as (l & n & Hout & Hl). rewrite Hout.
  destruct (rev (l ++ repeat ".." n)) as [|e out] eqn:Hrev; [done|].
  assert (Forall sepFree (e :: out)) as Hsep.
  { rewrite <- Hrev. apply Forall_rev, sepFree_dotted. by exists l, n. }
  assert (e ≠ EmptyString) as He.
  { assert (In e (l ++ repeat ".." n)) as Hin.
    { apply in_rev. rewrite Hrev. by left. }
    apply in_app_or in Hin as [Hin|Hin].
    - apply list_elem_of_In in Hin.
      rewrite Forall_forall in Hl. by destruct (Hl e Hin).
    - apply repeat_spec in Hin. by subst. }
  destruct (Join_unrooted e out He) as [Hne Hrel].
  { by inversion Hsep. }
  unfold filepath.Clean.
  apply String.eqb_neq in Hne as ->. rewrite Hrel.
  rewrite elements_Join by done.
  rewrite <- Hrev, cleanLoop_dotted by done. by rewrite Hrev.
Qed.

(** [Clean] applied twice is [Clean] applied once. *)
Lemma Clean_idempotent p : filepath.Clean (filepath.Clean p) = filepath.Clean p.
Proof.
  destruct (filepath.IsAbs p) eqn:Hp.
  - by apply Clean_idempotent_rooted.
  - by apply Clean_idempotent_unrooted.
Qed.

End MorePaths.

(** ** Case and the confinement check *)

Section CaseFacts.

Implicit Types p q e : string.
Implicit Types l out elems : list string.

Lemma lowerByte_idempotent c : strings.lowerByte (strings.lowerByte c) = strings.lowerByte c.
Proof. by destruct c as [[] [] [] [] [] [] [] []]. Qed.

Lemma IsPathSeparator_lowerByte c :
  IsPathSeparator (strings.lowerByte c) = IsPathSeparator c.
Proof. by destruct c as [[] [] [] [] [] [] [] []]. Qed.

Lemma lowerByte_dot c :
  Ascii.eqb (strings.lowerByte c) "." = Ascii.eqb c ".".
Proof. by destruct c as [[] [] [] [] [] [] [] []]. Qed.

Lemma ToLower_idempotent p : strings.ToLower (strings.ToLower p) = strings.ToLower p.
Proof. induction p as [|c p IH]; simpl; [done|]. by rewrite lowerByte_idempotent, IH. Qed.

Lemma ToLower_eqb_empty p : String.eqb (strings.ToLower p) "" = String.eqb p "".
Proof. by destruct p. Qed.

Lemma ToLower_eqb_dot p : String.eqb (strings.ToLower p) "." = String.eqb p ".".
Proof.
  destruct p as [|c [|d p]]; simpl; [done| |].
  - by rewrite lowerByte_dot.
  - by rewrite lowerByte_dot.
Qed.

Lemma ToLower_eqb_dotdot p : String.eqb (strings.ToLower p) ".." = String.eqb p "..".
Proof.
  destruct p as [|c [|d [|e p]]]; simpl; [done|..]; by rewrite ?lowerByte_dot.
Qed.

Lemma IsAbs_ToLower p : filepath.IsAbs (strings.ToLower p) = filepath.IsAbs p.
Proof.
  destruct p as [|c p]; [done|]. unfold filepath.IsAbs; simpl.
  pose proof (IsPathSeparator_lowerByte c) as H. unfold IsPathSeparator in H.
  by rewrite H.
Qed.

Lemma elements_ToLower p :
  filepath.elements (strings.ToLower p) = map strings.ToLower (filepath.elements p).
Proof.
  induction p as [|c p IH]; simpl; [done|].
  rewrite IsPathSeparator_lowerByte, IH.
  destruct (IsPathSeparator c); [done|].
  by destruct (filepath.elements p).
Qed.

Lemma cleanLoop_ToLower rooted out elems :
  filepath.cleanLoop rooted (map strings.ToLower out) (map strings.ToLower elems)
  = map strings.ToLower (filepath.cleanLoop rooted out elems).
Proof.
  revert out; induction elems as [|e elems IH]; intros out; simpl; [done|].
  rewrite ToLower_eqb_empty, ToLower_eqb_dot, ToLower_eqb_dotdot.
  destruct (String.eqb e ""); [by apply IH|].
  destruct (String.eqb e "."); [by apply IH|].
  destruct (String.eqb e "..").
  - destruct out as [|top out']; simpl.
    + destruct rooted; [apply (IH [])|apply (IH [e])].
    + rewrite ToLower_eqb_dotdot. destruct (String.eqb top "..");
        [apply (IH (e :: top :: out'))|apply IH].
  - apply (IH (e :: out)).
Qed.

Lemma Join_ToLower l :
  strings.Join (map strings.ToLower l) "/" = strings.ToLower (strings.Join l "/").
Proof.
  induction l as [|e l IH]; [done|].
  destruct l as [|e' l]; [done|].
  change (strings.Join (e :: e' :: l) "/")
    with (e +:+ "/" +:+ strings.Join (e' :: l) "/").
  rewrite !ToLower_app, <- IH. done.
Qed.

(** [Clean] looks at separators and dots only: lower-casing commutes with
    it. *)
Lemma Clean_ToLower p :
  filepath.Clean (strings.ToLower p) = strings.ToLower (filepath.Clean p).
Proof.
  unfold filepath.Clean.
  rewrite ToLower_eqb_empty, IsAbs_ToLower, elements_ToLower.
  change (@nil string) with (map strings.ToLower []).
  rewrite cleanLoop_ToLower, <- map_rev, Join_ToLower.
  destruct (String.eqb p ""); [done|].
  destruct (filepath.IsAbs p); [done|].
  by destruct (rev _).
Qed.

Lemma HasPrefix_app_both p q1 q2 :
  strings.HasPrefix (p +:+ q1) (p +:+ q2) = strings.HasPrefix q1 q2.
Proof.
  induction p as [|c p IH]; simpl; [done|]. by rewrite Ascii.eqb_refl, IH.
Qed.

Lemma HasPrefix_Join_snoc l e :
  strings.HasPrefix (strings.Join (l ++ [e]) "/") (strings.Join l "/") = true.
Proof.
  induction l as [|a l IH]; [done|].
  destruct l as [|b l].
  - simpl. apply HasPrefix_app.
  - change (strings.Join ((a :: b :: l) ++ [e]) "/")
      with (a +:+ "/" +:+ strings.Join ((b :: l) ++ [e]) "/").
    change (strings.Join (a :: b :: l) "/")
      with (a +:+ "/" +:+ strings.Join (b :: l) "/").
    by rewrite !HasPrefix_app_both.
Qed.

(** A proper element joined to a rooted path: the cleaned result starts
    with the cleaned path. *)
Lemma HasPrefix_Clean_child p e :
  filepath.IsAbs p = true → proper e →
  strings.HasPrefix (filepath.Clean (p +:+ "/" +:+ e)) (filepath.Clean p) = true.
Proof.
  intros Hp He.
  rewrite (Clean_rooted p), (Clean_rooted (p +:+ "/" +:+ e)) by by try apply IsAbs_app.
  rewrite elements_app, cleanLoop_app.
  rewrite (elements_sepFree e) by by destruct He as (_ & _ & _ & ?).
  rewrite (cleanLoop_proper _ _ [e]) by by constructor.
  rewrite HasPrefix_app_both. simpl rev at 2.
  rewrite rev_app_distr. apply HasPrefix_Join_snoc.
Qed.

End CaseFacts.

Section Verdicts.

Context {W : Type} `{!OS W}.
Variable originalRoot : string.

Implicit Types s : State W.
Implicit Types r : Request.


(** X10.  What lies directly below an accepted directory is accepted: when
    an absolute directory passes the check, so does the directory joined
    with any name that is a single proper path element (not empty, not [.]
    or [..], no separator in it).  [createDirectory] and [deleteFile] then
    never answer [Invalid path] for such a name. *)
Theorem isPathSafe_child (cur name : string) s :
  filepath.IsAbs originalRoot = true →
  filepath.IsAbs cur = true →
  (isPathSafe originalRoot cur s).1 = true →
  proper name →
  (isPathSafe originalRoot (filepath.Join [cur; name]) s).1 = true
  ∧ (∀ r, QueryGet r "file" = name →
       (deleteFile originalRoot r cur s).1
       ≠ httpError "Invalid path" StatusBadRequest)
  ∧ (∀ r, strings.Trim (QueryGet r "dir") dirCutset = name →
       (createDirectory originalRoot r cur s).1
       ≠ httpError "Invalid path" StatusBadRequest).
Proof.
  intros Hroot Hcur Hsafe Hname.
  assert (∀ s0, isPathSafe originalRoot (filepath.Join [cur; name]) s0 = (true, s0))
    as Hchild.
  { intros s0.
    rewrite isPathSafe_absolute in Hsafe |- * by (done || by apply IsAbs_Join).
    simpl in Hsafe. f_equal.
    rewrite Join_rooted, Clean_idempotent by done.
    eapply HasPrefix_trans; [|exact Hsafe].
    by apply HasPrefix_ToLower, HasPrefix_Clean_child. }
  split_and!.
  - by rewrite Hchild.
  - intros r Hfile. unfold deleteFile, bind. rewrite Hfile, Hchild. simpl.
    unfold Remove, ret. by destruct (os_Remove _ _) as [[err|] w].
  - intros r Hdir. unfold createDirectory. rewrite Hdir.
    destruct Hname as (Hne & _). apply String.eqb_neq in Hne as Hne'. rewrite Hne'.
    unfold bind. rewrite Join_rooted, Clean_idempotent by done.
    rewrite <- Join_rooted by done. rewrite Hchild. simpl.
    unfold Mkdir, ret. by destruct (os_Mkdir _ _ _) as [[err|] w].
Qed.

(** X11.  The second [filepath.Clean] of [changeDirectory] and of
    [createDirectory] changes nothing: [filepath.Join] has cleaned its
    result already.  Every directory [changeDirectory] computes from a
    name other than [root] is therefore a cleaned path. *)
Theorem joined_path_is_clean (cur dirName : string) :
  dirName ≠ EmptyString →
  filepath.Clean (filepath.Join [cur; dirName]) = filepath.Join [cur; dirName]
  ∧ (dirName ≠ "root" →
     filepath.Clean (targetDirectory originalRoot cur dirName)
     = targetDirectory originalRoot cur dirName).
Proof.
  intros Hname.
  assert (filepath.Clean (filepath.Join [cur; dirName]) = filepath.Join [cur; dirName])
    as Hjoin.
  { unfold filepath.Join.
    destruct (String.eqb cur ""); [|apply Clean_idempotent].
    apply String.eqb_neq in Hname as ->. apply Clean_idempotent. }
  split; [done|]. intros Hroot. unfold targetDirectory.
  destruct (String.eqb dirName ".."); [apply Clean_idempotent|].
  apply String.eqb_neq in Hroot as ->.
  by rewrite Hjoin.
Qed.

(** X12.  A [file] parameter that is missing or empty names the current
    directory itself: the joined path is the directory, and when it passes
    the check [deleteFile] calls [os.Remove] on the directory and
    [downloadFile] opens it. *)
Theorem empty_file_name_is_the_directory r cur s :
  QueryGet r "file" = EmptyString →
  cur ≠ EmptyString →
  filepath.Clean cur = cur →
  (isPathSafe originalRoot cur s).1 = true →
  filepath.Join [cur; QueryGet r "file"] = cur
  ∧ (∃ cs, Forall (eq CallGetwd) cs
       ∧ calls (deleteFile originalRoot r cur s).2 = calls s ++ cs ++ [CallRemove cur])
  ∧ (∃ cs, Forall (eq CallGetwd) cs
       ∧ calls (downloadFile originalRoot r cur s).2 = calls s ++ cs ++ [CallOpen cur]).
Proof.
  intros Hfile Hcur Hclean Hsafe.
  assert (filepath.Join [cur; QueryGet r "file"] = cur) as Hjoin.
  { by rewrite Hfile, Join_empty_name, Hclean. }
  destruct (isPathSafe_run originalRoot cur s) as (safe & cs & E & Hcs).
  rewrite E in Hsafe. simpl in Hsafe. subst safe.
  split_and!; [done|exists cs|exists cs]; (split; [done|]).
  - unfold deleteFile, bind. rewrite Hjoin, E. unfold Remove, ret; simpl.
    destruct (os_Remove _ _) as [[err|] w]; simpl; by rewrite app_assoc.
  - unfold downloadFile, bind. rewrite Hjoin, E. unfold Open, ret; simpl.
    destruct (os_Open _ _) as [file|err]; simpl; [|by rewrite app_assoc].
    destruct (fileStat file); simpl; by rewrite app_assoc.
Qed.

End Verdicts.

(** ** Passes of the sweep, and the keys of the sessions *)

Section SweepFacts.

Implicit Types m : gmap string Session.

(** X13.  Passes of the sweep compose: a pass only removes entries, a
    second pass with the same readings removes nothing more, and after a
    pass with readings that are nowhere earlier the map is what that later
    pass alone would have left. *)
Theorem sweep_passes_compose (clock1 clock2 : string → time.Time) m :
  (∀ id, clock1 id ≤ clock2 id) →
  sweepSessions clock1 m ⊆ m
  ∧ sweepSessions clock1 (sweepSessions clock1 m) = sweepSessions clock1 m
  ∧ sweepSessions clock2 (sweepSessions clock1 m) = sweepSessions clock2 m.
Proof.
  intros Hclock. split_and!.
  - apply map_filter_subseteq.
  - apply map_eq. intros id. rewrite !sweepSessions_lookup.
    destruct (m !! id) as [sess|]; [|done].
    case_bool_decide; [done|]. by rewrite bool_decide_false.
  - apply map_eq. intros id. rewrite !sweepSessions_lookup.
    destruct (m !! id) as [sess|]; [|done].
    specialize (Hclock id).
    case_bool_decide as H1; [|done].
    rewrite bool_decide_true; [done|lia].
Qed.

End SweepFacts.

Section Keys.

Context {W : Type} `{!OS W}.

Implicit Types s : State W.

Lemma EncodeToString_length (src : list byte) :
  String.length (hex.EncodeToString src) = (2 * length src)%nat.
Proof. induction src as [|b src IH]; simpl; [done|]. rewrite IH. lia. Qed.

Lemma EncodeToString_digits (src : list byte) :
  allBytes isHexDigit (hex.EncodeToString src) = true.
Proof.
  induction src as [|b src IH]; simpl; [done|]. rewrite IH.
  by destruct b.
Qed.

(** The bytes are read back from their digits. *)
Lemma hexBytes_EncodeToString (src : list byte) :
  hexBytes (hex.EncodeToString src) = src.
Proof.
  induction src as [|b src IH]; simpl; [done|]. rewrite IH.
  by destruct b.
Qed.

(** X14.  The key [generateSessionID] returns is written in lower-case
    hexadecimal digits, two for each random byte read, and the bytes can be
    read back from it: different bytes never give the same key. *)
Theorem session_id_shape s (bytes : list byte) (w : W) :
  rand_Read (world s) 16 = (bytes, w) →
  let id := (generateSessionID s).1 in
  String.length id = (2 * length bytes)%nat
  ∧ allBytes isHexDigit id = true
  ∧ hexBytes id = bytes
  ∧ ∀ s' bytes' w', rand_Read (world s') 16 = (bytes', w') →
      (generateSessionID s').1 = id → bytes' = bytes.
Proof.
  intros Hrand id.
  assert (∀ s0 bytes0 w0, rand_Read (world s0) 16 = (bytes0, w0) →
            (generateSessionID s0).1 = hex.EncodeToString bytes0) as Hid.
  { intros s0 bytes0 w0 E. unfold generateSessionID, bind, randRead, ret.
    by rewrite E. }
  unfold id. rewrite (Hid _ _ _ Hrand).
  split_and!.
  - apply EncodeToString_length.
  - apply EncodeToString_digits.
  - apply hexBytes_EncodeToString.
  - intros s' bytes' w' Hrand' E. rewrite (Hid _ _ _ Hrand') in E.
    apply (f_equal hexBytes) in E. by rewrite !hexBytes_EncodeToString in E.
Qed.

End Keys.

(** ** What the handlers touch *)

Section Jail.

Context {W : Type} `{!OS W}.
Variable originalRoot : string.

Implicit Types s : State W.
Implicit Types r : Request.

(** The verdict of the check depends on the world only, not on the
    sessions or on the calls logged so far. *)
Lemma isPathSafe_world path s s' :
  world s = world s' →
  (isPathSafe originalRoot path s).1 = (isPathSafe originalRoot path s').1.
Proof.
  intros Hw. unfold isPathSafe, Abs, bind, Getwd, ret.
  destruct (filepath.IsAbs path), (filepath.IsAbs originalRoot); simpl;
    rewrite <- ?Hw; try done;
    destruct (os_Getwd (world s)); simpl; try done;
    rewrite <- ?Hw; by destruct (os_Getwd (world s)).
Qed.

(** The calls of the log that change the file system or the working
    directory are made on paths that passed the check in state [s]. *)
Abbreviation checkedCalls s cs :=
  (Forall (fun c => changesSystem c = true →
             ∃ p, callTarget c = Some p ∧ (isPathSafe originalRoot p s).1 = true) cs).

Lemma checkedCalls_Getwd s cs : Forall (eq CallGetwd) cs → checkedCalls s cs.
Proof.
  intros Hcs. eapply Forall_impl; [exact Hcs|]. by intros c <-.
Qed.

Lemma checkedCalls_app s cs cs' :
  checkedCalls s cs → checkedCalls s cs' → checkedCalls s (cs ++ cs').
Proof. intros. by apply Forall_app. Qed.


(** X16.  The name [root] is a key word of [/cd]: whatever the current
    directory, the candidate is the root itself, never a directory of that
    name below the current one.  With an absolute root the answer is never
    [Invalid path], and a change that succeeds puts the session at the
    root. *)
Theorem cd_root_goes_to_the_root r cur s :
  filepath.IsAbs originalRoot = true →
  strings.Trim (QueryGet r "dir") dirCutset = "root" →
  let res := changeDirectory originalRoot r cur s in
  (∃ cs, calls res.2 = calls s ++ CallStat originalRoot :: cs)
  ∧ res.1 ≠ httpError "Invalid path" StatusBadRequest
  ∧ (StatusCode res.1 = StatusOK →
     ∃ id now,
       RequestCookie r "session_id" = Some id
       ∧ sessions res.2
         = <[id := {| CurrentDir := originalRoot; LastAccess := now |}]> (sessions s)).
Proof.
  intros Hroot Htrim res. unfold res.
  destruct (changeDirectory_outcome originalRoot r cur s)
    as [Hempty
       |newDir err Hnew Hstat
       |newDir info Hnew Hstat Hdir
       |newDir info cs Hnew Hstat Hdir Hsafe Hcs
       |newDir info cs err w Hnew Hstat Hdir Hsafe Hcs Hchdir
       |newDir info cs w Hnew Hstat Hdir Hsafe Hcs Hchdir Hcookie
       |newDir info cs w id now w' Hnew Hstat Hdir Hsafe Hcs Hchdir Hcookie Hnow];
    try (rewrite Htrim in Hnew; change (targetDirectory originalRoot cur "root")
           with originalRoot in Hnew; subst newDir); simpl.
  - by rewrite Htrim in Hempty.
  - split_and!; [by eexists|by destruct (IsNotExist err)|by destruct (IsNotExist err)].
  - split_and!; [by eexists|done..].
  - rewrite isPathSafe_root in Hsafe by done. discriminate.
  - split_and!; [by eexists|done..].
  - split_and!; [by eexists|done..].
  - split_and!; [by eexists|done|]. intros _. by exists id, now.
Qed.

End Jail.

(** ** The start of the server *)

Section StartupFacts.

Context {W : Type} `{!OS W}.

Implicit Types s : State W.

(** The loop over the words goes on from where a first part of them has
    left the folder and the port. *)
Lemma parseFlags_app (l l' : list string) (rootFolder port rootFolder' port' : string) :
  parseFlags l rootFolder port = FlagsParsed rootFolder' port' →
  parseFlags (l ++ l') rootFolder port = parseFlags l' rootFolder' port'.
Proof.
  remember (length l) as n eqn:Hn.
  revert l Hn rootFolder port.
  induction n as [n IH] using lt_wf_ind. intros l Hn rootFolder port.
  destruct l as [|flag [|value rest]]; simpl.
  - by intros [= -> ->].
  - repeat case_match; discriminate.
  - repeat case_match; try discriminate;
      intros Hparsed; eapply (IH (length rest)); simpl in Hn; (lia || done).
Qed.

(** X17.  A flag that is the last word of the command line has no value:
    [main] indexes [os.Args] past its end and the program panics, whatever
    well-formed flags come before it. *)
Theorem flag_without_value_panics (prog flag : string) (l : list string)
    (rootFolder port : string) s :
  flag = "-f" ∨ flag = "-p" →
  l ≠ [] →
  parseFlags l EmptyString EmptyString = FlagsParsed rootFolder port →
  main (prog :: l ++ [flag]) s = (Panics, s).
Proof.
  intros Hflag Hl Hparsed. unfold main.
  assert ((length (prog :: l ++ [flag]) <? 3)%nat = false) as ->.
  { apply Nat.ltb_ge. destruct l; [done|]. simpl. rewrite List.length_app. simpl. lia. }
  change (tail (prog :: l ++ [flag])) with (l ++ [flag]).
  rewrite (parseFlags_app _ _ _ _ _ _ Hparsed).
  by destruct Hflag as [-> | ->].
Qed.

(** X18.  The root [main] stores is an absolute, cleaned path, provided
    the working directory of the process is reported as a rooted path; it
    passes its own check in every state. *)
Theorem main_root_is_absolute_and_clean (osArgs : list string) s
    (originalRoot port : string) :
  (∀ wd, os_Getwd (world s) = inl wd → filepath.IsAbs wd = true) →
  (main osArgs s).1 = Serves originalRoot port →
  filepath.IsAbs originalRoot = true
  ∧ filepath.Clean originalRoot = originalRoot
  ∧ ∀ s' : State W, isPathSafe originalRoot originalRoot s' = (true, s').
Proof.
  intros Hwd Hmain. unfold main in Hmain.
  destruct (length osArgs <? 3)%nat; [done|].
  destruct (parseFlags _ _ _) as [flag| |rootFolder port0]; [done..|].
  unfold bind in Hmain.
  pose proof (Abs_absolute_clean rootFolder s) as Habs.
  destruct (Abs rootFolder s) as [[absRoot [err|]] s1]; simpl in *; [done|].
  injection Hmain as -> ->.
  destruct (Habs originalRoot Hwd eq_refl) as [Habsolute Hclean].
  split_and!; [done..|]. intros s'. by apply isPathSafe_root.
Qed.

(** X19.  Started without [-f] (or with an empty folder), the server takes
    the working directory of the process, cleaned, as its root. *)
Theorem main_without_folder (osArgs : list string) (port wd : string) s :
  (3 ≤ length osArgs)%nat →
  parseFlags (tail osArgs) EmptyString EmptyString = FlagsParsed EmptyString port →
  os_Getwd (world s) = inl wd →
  wd ≠ EmptyString →
  (main osArgs s).1 = Serves (filepath.Clean wd) port.
Proof.
  intros Hlen Hparsed Hgetwd Hwd. unfold main.
  apply Nat.ltb_ge in Hlen as ->. rewrite Hparsed.
  unfold bind, Abs, bind, Getwd, ret. cbn -[filepath.Join]. rewrite Hgetwd.
  cbn -[filepath.Join]. by rewrite Join_empty_name.
Qed.

End StartupFacts.

(** ** The client and the server *)

Section ClientFacts.

Context {W : Type} `{!OS W}.
Variable originalRoot : string.

Implicit Types s : State W.
Implicit Types r : Request.

(** X20.  The commands of the client against the routes of the server:
    every command that sends a request asks for a path the server has a
    route for, except [cat]: it asks for [/cat], for which [main] registers
    no handler, and a request on a path without a route is answered with
    status 404 outside the wrapper, with no session created or touched. *)
Theorem client_commands_and_routes (command arg path : string) :
  obc.turnPath (obc.turn command arg) = Some path →
  (command ≠ "cat" → is_Some (route (W := W) originalRoot path))
  ∧ (command = "cat" →
     path = "/cat"
     ∧ ∀ r s, URLPath r = path →
         serve originalRoot r s = (httpError "404 page not found" StatusNotFound, s)).
Proof.
  unfold obc.turn. intros Hpath.
  repeat match type of Hpath with
         | context [String.eqb command ?q] =>
             destruct (String.eqb_spec command q) as [->|?]
         | context [String.eqb arg EmptyString] =>
             destruct (String.eqb arg EmptyString)
         end; simpl in Hpath; try discriminate Hpath;
    try (injection Hpath as <-; split; [intros _; by eexists|done]).
  injection Hpath as <-. split; [done|]. intros _. split; [done|].
  intros r s Hr. unfold serve. by rewrite Hr.
Qed.

(** X21.  Connecting: the client asks for [/files] with no cookie; when the
    answer has status 200, the key the client keeps from the cookies of the
    answer is a key of the server's map, of a session at the root, and
    [addSessionCookie] attaches it, so that the server finds that session
    for every later request of the client. *)
Theorem connect_yields_known_session s (bytes : list byte) (w : W) :
  rand_Read (world s) 16 = (bytes, w) →
  bytes ≠ [] →
  let res :=
    serve originalRoot
      {| URLPath := "/files"; Cookies := []; Query := []; MultipartForm := None |} s in
  StatusCode res.1 = StatusOK →
  let sessionID := obc.sessionFromCookies (SetCookie res.1) EmptyString in
  sessionID = hex.EncodeToString bytes
  ∧ (∃ now, sessions res.2 !! sessionID
            = Some {| CurrentDir := originalRoot; LastAccess := now |})
  ∧ ∀ r, Cookies r = obc.addSessionCookie sessionID [] →
      RequestCookie r "session_id" = Some sessionID.
Proof.
  intros Hrand Hbytes res Hstatus sessionID.
  assert (route originalRoot "/files" = Some listFiles) as Hroute by done.
  destruct (serve_unknown originalRoot listFiles
              {| URLPath := "/files"; Cookies := []; Query := []; MultipartForm := None |}
              s Hroute (or_introl eq_refl))
    as (bytes' & w1 & now & w' & c & Hrand' & Hnow & Hname & Hvalue & Hserve).
  rewrite Hrand in Hrand'. injection Hrand' as <- <-.
  assert (sessionID = hex.EncodeToString bytes) as Hid.
  { unfold sessionID, res. rewrite Hserve. simpl.
    destruct c as [name value httpOnly pth]; simpl in *. subst name.
    by rewrite (handler_sets_no_cookie originalRoot "/files" listFiles). }
  split_and!; [done| |].
  - exists now. unfold res. rewrite Hserve, Hid. simpl.
    rewrite listFiles_sessions. simpl. apply lookup_insert_eq.
  - intros r Hr. unfold RequestCookie. rewrite Hr, Hid.
    unfold obc.addSessionCookie.
    by destruct bytes as [|b bytes].
Qed.

End ClientFacts.

(** ** Answers of status 200 *)

Section Successes.

Context {W : Type} `{!OS W}.
Variable originalRoot : string.

Implicit Types s : State W.
Implicit Types r : Request.


(** X23.  [downloadFile] answers with status 200 only when the joined path
    passed the check and could be opened and examined; the body is then the
    bytes of that file, the length announced is the size reported for it,
    in decimal, and the name announced is the parameter as it came.
    Whatever the answer, a download changes neither the world nor the
    sessions, and a file that cannot be opened is reported as not found
    whatever the reason. *)
Theorem downloadFile_success r cur s :
  let filePath := filepath.Join [cur; QueryGet r "file"] in
  let res := downloadFile originalRoot r cur s in
  world res.2 = world s
  ∧ sessions res.2 = sessions s
  ∧ (∀ err, (isPathSafe originalRoot filePath s).1 = true →
       os_Open (world s) filePath = inr err →
       res.1 = httpError "File not found" StatusNotFound)
  ∧ (StatusCode res.1 = StatusOK →
     ∃ file info,
       (isPathSafe originalRoot filePath s).1 = true
       ∧ os_Open (world s) filePath = inl file
       ∧ fileStat file = inl info
       ∧ Body res.1 = fileBytes file
       ∧ Header res.1
         = [ ("Content-Disposition", "attachment; filename=" +:+ QueryGet r "file");
             ("Content-Length", formatInt (Size info)) ]).
Proof.
  intros filePath res. unfold res, downloadFile, bind. fold filePath.
  destruct (isPathSafe_run originalRoot filePath s) as (safe & cs & E & Hcs).
  rewrite E. simpl. destruct safe; simpl.
  2:{ split_and!; done. }
  unfold Open, ret; simpl.
  destruct (os_Open (world s) filePath) as [file|err] eqn:Hopen; simpl.
  2:{ split_and!; done. }
  destruct (fileStat file) as [info|err] eqn:Hstat; simpl.
  - split_and!; [done..|]. intros _. by exists file, info.
  - split_and!; done.
Qed.

(** X24.  [deleteFile] and [createDirectory] answer with status 200 only
    when the path passed the check and the operating system carried the
    removal, or the creation with mode 0755, out; the world is then the one
    that call has left. *)
Theorem delete_and_mkdir_success r cur s :
  (StatusCode (deleteFile originalRoot r cur s).1 = StatusOK →
   let filePath := filepath.Join [cur; QueryGet r "file"] in
   ∃ w, (isPathSafe originalRoot filePath s).1 = true
        ∧ os_Remove (world s) filePath = (None, w)
        ∧ world (deleteFile originalRoot r cur s).2 = w)
  ∧ (StatusCode (createDirectory originalRoot r cur s).1 = StatusOK →
     let dirPath :=
       filepath.Clean
         (filepath.Join [cur; strings.Trim (QueryGet r "dir") dirCutset]) in
     ∃ w, (isPathSafe originalRoot dirPath s).1 = true
          ∧ os_Mkdir (world s) dirPath 493 = (None, w)
          ∧ world (createDirectory originalRoot r cur s).2 = w).
Proof.
  split.
  - unfold deleteFile, bind.
    set (filePath := filepath.Join [cur; QueryGet r "file"]).
    destruct (isPathSafe_run originalRoot filePath s) as (safe & cs & E & Hcs).
    rewrite E. destruct safe; [|done]. unfold Remove, ret; simpl.
    destruct (os_Remove (world s) filePath) as [[err|] w] eqn:Hrm; [done|].
    intros _. by exists w.
  - unfold createDirectory.
    destruct (String.eqb _ EmptyString); [done|]. unfold bind.
    set (dirPath := filepath.Clean _).
    destruct (isPathSafe_run originalRoot dirPath s) as (safe & cs & E & Hcs).
    rewrite E. destruct safe; [|done]. unfold Mkdir, ret; simpl.
    destruct (os_Mkdir (world s) dirPath 493) as [[err|] w] eqn:Hmk; [done|].
    intros _. by exists w.
Qed.

End Successes.

(** ** The directories of sessions are cleaned paths *)

Section Shapes.

Context {W : Type} `{!OS W}.
Variable originalRoot : string.

Implicit Types s : State W.
Implicit Types r : Request.

Lemma hasSeparator_app_sep x y : filepath.hasSeparator (x +:+ "/" +:+ y) = true.
Proof.
  induction x as [|c x IH]; [done|].
  change (String c x +:+ "/" +:+ y) with (String c (x +:+ "/" +:+ y)).
  cbn [filepath.hasSeparator]. rewrite IH. apply orb_true_r.
Qed.

(** The last separator of a path that ends in a separator-free element
    is the one before that element. *)
Lemma uptoLastSeparator_app x e :
  sepFree e → filepath.uptoLastSeparator (x +:+ "/" +:+ e) = x +:+ "/".
Proof.
  intros He. induction x as [|c x IH].
  - simpl. unfold sepFree in He. by rewrite He.
  - change (String c x +:+ "/" +:+ e) with (String c (x +:+ "/" +:+ e)).
    cbn [filepath.uptoLastSeparator].
    by rewrite hasSeparator_app_sep, IH.
Qed.

Lemma Join_snoc l e :
  l ≠ [] → strings.Join (l ++ [e]) "/" = strings.Join l "/" +:+ "/" +:+ e.
Proof.
  induction l as [|a l IH]; [done|]. intros _.
  destruct l as [|b l]; [done|].
  change (strings.Join ((a :: b :: l) ++ [e]) "/")
    with (a +:+ "/" +:+ strings.Join ((b :: l) ++ [e]) "/").
  change (strings.Join (a :: b :: l) "/")
    with (a +:+ "/" +:+ strings.Join (b :: l) "/").
  rewrite IH by done. by rewrite !app_assoc_string.
Qed.

(** The parent of a rooted path extended by a proper element is the
    cleaned path. *)
Lemma Dir_Clean_child p e :
  filepath.IsAbs p = true → proper e →
  filepath.Dir (filepath.Clean (p +:+ "/" +:+ e)) = filepath.Clean p.
Proof.
  intros Hp He.
  assert (sepFree e) as Hsep by by destruct He as (_ & _ & _ & ?).
  rewrite (Clean_rooted (p +:+ "/" +:+ e)) by by apply IsAbs_app.
  rewrite elements_app, cleanLoop_app, (elements_sepFree e) by done.
  rewrite (cleanLoop_proper _ _ [e]) by by constructor.
  rewrite rev_app_distr, rev_involutive.
  pose proof (Clean_rooted p Hp) as Hclean.
  destruct (rev (filepath.cleanLoop true [] (filepath.elements p))) as [|a out] eqn:Hout.
  - unfold filepath.Dir. cbn [app strings.Join].
    change ("/" +:+ e) with (EmptyString +:+ "/" +:+ e).
    rewrite uptoLastSeparator_app by done. by rewrite Hclean.
  - unfold filepath.Dir. rewrite Join_snoc by done.
    rewrite <- !app_assoc_string, <- Hclean.
    rewrite app_assoc_string, uptoLastSeparator_app by done.
    rewrite Clean_trailing_separator; [apply Clean_idempotent|].
    by rewrite Hclean.
Qed.

(** What [changeDirectory] computes is a cleaned path whenever the root
    is one. *)
Lemma targetDirectory_clean cur name :
  filepath.Clean originalRoot = originalRoot →
  filepath.Clean (targetDirectory originalRoot cur name)
  = targetDirectory originalRoot cur name.
Proof.
  intros Hroot. unfold targetDirectory.
  destruct (String.eqb name ".."); [apply Clean_idempotent|].
  destruct (String.eqb name "root"); [done|]. apply Clean_idempotent.
Qed.

(** A property of directories that holds of the root and is kept by the
    [switch] of [changeDirectory] holds of every directory the server
    stores. *)
Lemma reachable_directories (P : string → Prop) w s :
  P originalRoot →
  (∀ cur name, P cur → P (targetDirectory originalRoot cur name)) →
  reachable originalRoot w s →
  ∀ id sess, sessions s !! id = Some sess → P (CurrentDir sess).
Proof.
  intros Hroot Hswitch. induction 1 as [|s s' _ IH Hstep]; [done|].
  destruct Hstep as [r s0|clock s0|w' s0]; simpl.
  - unfold serve.
    destruct (route originalRoot (URLPath r)) as [fn|] eqn:Hroute; [|done].
    destruct (withSession_run originalRoot fn r s0) as (id0 & cookie & sess0 & w0 & Hres & ->).
    cbn [snd].
    set (s1 := {| sessions := <[id0 := sess0]> (sessions s0);
                  world := w0; calls := calls s0 |}).
    assert (P (CurrentDir sess0)) as Hcur.
    { destruct Hres as [old _ Hold _ -> _|? ? ? _ _ _ _ -> _ _ _]; [|done].
      by apply (IH _ _ Hold). }
    assert (∀ id sess, sessions s1 !! id = Some sess → P (CurrentDir sess)) as H1.
    { intros id sess. unfold s1; cbn [sessions]. rewrite lookup_insert.
      case_decide; [by intros [= <-]|by apply IH]. }
    clearbody s1. clear IH.
    unfold route in Hroute. repeat case_match; simplify_eq.
    + by rewrite listFiles_sessions.
    + by rewrite uploadFile_sessions.
    + by rewrite downloadFile_sessions.
    + by rewrite deleteFile_sessions.
    + destruct (changeDirectory_outcome originalRoot r (CurrentDir sess0) s1)
        as [| | | | | |newDir info cs w1 id1 now w2 -> _ _ _ _ _ _ _];
        cbn [sessions]; try done.
      intros id sess. rewrite lookup_insert.
      case_decide; [|by apply H1]. intros [= <-]. by apply Hswitch.
    + by rewrite createDirectory_sessions.
    + rewrite handleQuit_sessions. destruct (RequestCookie r "session_id"); [|done].
      intros id sess Hid. apply lookup_delete_Some in Hid as [_ Hid]. by eapply H1.
  - intros id sess Hid. unfold cleanupPass, sweepSessions in Hid; simpl in Hid.
    apply map_lookup_filter_Some in Hid as [Hid _]. by eapply IH.
  - done.
Qed.

(** X25.  Going down by one proper name and asking for [..] computes the
    directory one started from: for a rooted directory and a name that is
    neither empty, [.], [..] nor [root] and holds no separator, the
    [switch] of [changeDirectory] applied to the name and then to [..]
    gives the cleaned starting directory, which is the starting directory
    itself when that was a cleaned path. *)
Theorem descend_then_ascend (cur name : string) :
  filepath.IsAbs cur = true → proper name → name ≠ "root" →
  targetDirectory originalRoot (targetDirectory originalRoot cur name) ".."
  = filepath.Clean cur
  ∧ (filepath.Clean cur = cur →
     targetDirectory originalRoot (targetDirectory originalRoot cur name) ".." = cur).
Proof.
  intros Hcur Hname Hroot.
  assert (targetDirectory originalRoot (targetDirectory originalRoot cur name) ".."
          = filepath.Clean cur) as E.
  { unfold targetDirectory at 1. cbn [String.eqb Ascii.eqb Bool.eqb].
    change (if String.eqb ".." ".." then ?a else ?b) with a.
    unfold targetDirectory.
    destruct Hname as (Hne & Hdot & Hdots & Hsep).
    apply String.eqb_neq in Hdots as Hdots', Hroot as Hroot'.
    rewrite Hdots', Hroot'.
    rewrite Join_rooted by done.
    rewrite Clean_idempotent. by apply Dir_Clean_child. }
  split; [done|]. intros Hclean. by rewrite E.
Qed.

(** X26.  When the root is a cleaned path, as the one [main] stores is,
    the directory of every session is a cleaned path in every state the
    server reaches by serving requests one after the other, sweeping and
    seeing the world change; when the root is rooted, so is every such
    directory. *)
Theorem session_directories_clean w s :
  filepath.Clean originalRoot = originalRoot →
  reachable originalRoot w s →
  ∀ id sess, sessions s !! id = Some sess →
    filepath.Clean (CurrentDir sess) = CurrentDir sess
    ∧ (filepath.IsAbs originalRoot = true → filepath.IsAbs (CurrentDir sess) = true).
Proof.
  intros Hroot Hreach id sess Hid. split.
  - apply (reachable_directories
             (fun d => filepath.Clean d = d) w s Hroot
             (fun cur name _ => targetDirectory_clean cur name Hroot)
             Hreach id sess Hid).
  - intros Habs.
    apply (reachable_directories
             (fun d => filepath.IsAbs d = true) w s Habs
             (fun cur name Hcur => targetDirectory_absolute originalRoot Habs cur name Hcur)
             Hreach id sess Hid).
Qed.

End Shapes.

(** * The further properties on the sample tree *)

Lemma request_leaves_other_sessions_witness :
  sessions (serve sampleRoot (request "/cd" (Some sampleToken) [("dir", "foo")])
              (serve sampleRoot (request "/files" None []) sampleState).2).2
    !! "02000000000000000000000000000000"
  = sessions (serve sampleRoot (request "/files" None []) sampleState).2
      !! "02000000000000000000000000000000".
Proof.
  apply (request_leaves_other_sessions sampleRoot
           (request "/cd" (Some sampleToken) [("dir", "foo")])
           (serve sampleRoot (request "/files" None []) sampleState).2
           sampleToken {| CurrentDir := "/srv/data"; LastAccess := 1000 |}
           "02000000000000000000000000000000");
    [vm_compute; reflexivity..|vm_compute; discriminate].
Defined.

Lemma request_keeps_directory_witness :
  ∃ now,
    sessions (serve sampleRoot (request "/files" (Some sampleToken) []) sampleState).2
    = <[sampleToken := {| CurrentDir := "/srv/data"; LastAccess := now |}]>
        (sessions sampleState).
Proof.
  destruct (request_keeps_directory sampleRoot
              (request "/files" (Some sampleToken) []) sampleState
              sampleToken {| CurrentDir := "/srv/data"; LastAccess := 1000 |})
    as (now & w & _ & Hsessions & _); [vm_compute; reflexivity..|].
  by exists now.
Defined.

Lemma quit_forgets_session_witness :
  sessions (serve sampleRoot (request "/quit" (Some sampleToken) []) sampleState).2
  = delete sampleToken (sessions sampleState).
Proof.
  destruct (quit_forgets_session sampleRoot
              (request "/quit" (Some sampleToken) []) sampleState
              sampleToken {| CurrentDir := "/srv/data"; LastAccess := 1000 |})
    as (_ & Hsessions & _); [vm_compute; reflexivity..|].
  exact Hsessions.
Defined.


Lemma quit_without_cookie_leaves_session_witness :
  ∃ bytes now,
    sessions (serve sampleRoot (request "/quit" None []) sampleState).2
    = <[hex.EncodeToString bytes := {| CurrentDir := sampleRoot; LastAccess := now |}]>
        (sessions sampleState).
Proof.
  destruct (quit_without_cookie_leaves_session sampleRoot
              (request "/quit" None []) sampleState)
    as (bytes & w1 & now & w & _ & _ & _ & Hsessions); [vm_compute; reflexivity..|].
  by exists bytes, now.
Defined.

Lemma first_request_cannot_navigate_witness :
  StatusCode (serve sampleRoot (request "/cd" None [("dir", "foo")]) sampleState).1
  ≠ StatusOK.
Proof.
  destruct (first_request_cannot_navigate sampleRoot
              (request "/cd" None [("dir", "foo")]) sampleState)
    as (_ & Hstatus & _); [vm_compute; reflexivity..|].
  exact Hstatus.
Defined.


Lemma isPathSafe_child_witness :
  (isPathSafe sampleRoot (filepath.Join ["/srv/data/foo"; "new"]) sampleState).1 = true.
Proof.
  destruct (isPathSafe_child sampleRoot "/srv/data/foo" "new" sampleState)
    as (Hsafe & _); [vm_compute; reflexivity..| |exact Hsafe].
  split_and!; vm_compute; (discriminate || reflexivity).
Defined.

Lemma joined_path_is_clean_witness :
  filepath.Clean (filepath.Join ["/srv/data"; "a/../b//c"])
  = filepath.Join ["/srv/data"; "a/../b//c"].
Proof.
  destruct (joined_path_is_clean sampleRoot "/srv/data" "a/../b//c") as (Hclean & _);
    [discriminate|exact Hclean].
Defined.

Lemma empty_file_name_is_the_directory_witness :
  filepath.Join ["/srv/data/foo"; QueryGet (request "/delete" (Some sampleToken) []) "file"]
  = "/srv/data/foo".
Proof.
  destruct (empty_file_name_is_the_directory sampleRoot
              (request "/delete" (Some sampleToken) []) "/srv/data/foo" sampleState)
    as (Hjoin & _); [vm_compute; reflexivity|discriminate|vm_compute; reflexivity..|].
  exact Hjoin.
Defined.

Lemma sweep_passes_compose_witness :
  sweepSessions (fun _ => 400000001000)
    (sweepSessions (fun _ => 1000) (sessions sampleState))
  = sweepSessions (fun _ => 400000001000) (sessions sampleState).
Proof.
  destruct (sweep_passes_compose (fun _ => 1000) (fun _ => 400000001000)
              (sessions sampleState)) as (_ & _ & Hcompose); [intros _; lia|].
  exact Hcompose.
Defined.

Lemma session_id_shape_witness :
  String.length (generateSessionID sampleState).1 = 32%nat.
Proof.
  destruct (session_id_shape sampleState
              (rand_Read (world sampleState) 16).1 (rand_Read (world sampleState) 16).2)
    as (Hlength & _); [vm_compute; reflexivity|].
  rewrite Hlength. vm_compute. reflexivity.
Defined.


Lemma cd_root_goes_to_the_root_witness :
  (changeDirectory sampleRoot (request "/cd" (Some sampleToken) [("dir", "/root/")])
     "/srv/data/foo" sampleState).1
  ≠ httpError "Invalid path" StatusBadRequest.
Proof.
  destruct (cd_root_goes_to_the_root sampleRoot
              (request "/cd" (Some sampleToken) [("dir", "/root/")])
              "/srv/data/foo" sampleState)
    as (_ & Hanswer & _); [vm_compute; reflexivity..|].
  exact Hanswer.
Defined.

Lemma flag_without_value_panics_witness :
  main ["obs"; "-f"; "/srv/data"; "-p"] (initialState sampleFS)
  = (Panics, initialState sampleFS).
Proof.
  apply (flag_without_value_panics "obs" "-p" ["-f"; "/srv/data"] "/srv/data" EmptyString
           (initialState sampleFS)); [by right|discriminate|reflexivity].
Defined.

Lemma main_root_is_absolute_and_clean_witness :
  filepath.IsAbs "/home/u/data" = true
  ∧ filepath.Clean "/home/u/data" = "/home/u/data"
  ∧ ∀ s' : State MemFS.T, isPathSafe "/home/u/data" "/home/u/data" s' = (true, s').
Proof.
  apply (main_root_is_absolute_and_clean ["obs"; "-f"; "./data/"; "-p"; "8080"]
           (initialState sampleFS) "/home/u/data" "8080").
  - intros wd Hwd. vm_compute in Hwd. by injection Hwd as <-.
  - vm_compute. reflexivity.
Defined.

Lemma main_without_folder_witness :
  (main ["obs"; "-p"; "8080"] (initialState sampleFS)).1
  = Serves (filepath.Clean "/home/u") "8080".
Proof.
  apply (main_without_folder ["obs"; "-p"; "8080"] "8080" "/home/u"
           (initialState sampleFS));
    [simpl; lia|reflexivity|vm_compute; reflexivity|discriminate].
Defined.

Lemma client_commands_and_routes_witness :
  is_Some (route (W := MemFS.T) sampleRoot "/delete").
Proof.
  destruct (client_commands_and_routes (W := MemFS.T) sampleRoot "rm" "a.txt" "/delete")
    as (Hroute & _); [vm_compute; reflexivity|].
  apply Hroute. discriminate.
Defined.

Lemma connect_yields_known_session_witness :
  obc.sessionFromCookies
    (SetCookie (serve sampleRoot
                  {| URLPath := "/files"; Cookies := []; Query := [];
                     MultipartForm := None |} (initialState sampleFS)).1)
    EmptyString
  = "01ab0000000000000000000000000000".
Proof.
  destruct (connect_yields_known_session sampleRoot (initialState sampleFS)
              (rand_Read (world (initialState sampleFS)) 16).1
              (rand_Read (world (initialState sampleFS)) 16).2)
    as (Hkey & _); [vm_compute; reflexivity|vm_compute; discriminate
                   |vm_compute; reflexivity|].
  rewrite Hkey. vm_compute. reflexivity.
Defined.

Lemma descend_then_ascend_witness :
  targetDirectory sampleRoot (targetDirectory sampleRoot "/srv/data" "foo") ".."
  = "/srv/data".
Proof.
  destruct (descend_then_ascend sampleRoot "/srv/data" "foo") as (_ & Hback);
    [reflexivity|split_and!; (discriminate || reflexivity)|discriminate|].
  apply Hback. vm_compute. reflexivity.
Defined.

Lemma session_directories_clean_witness :
  filepath.Clean "/srv/data/foo" = "/srv/data/foo".
Proof.
  destruct (session_directories_clean sampleRoot sampleFS
              (serve sampleRoot (request "/cd" (Some sampleToken) [("dir", "foo")])
                 sampleState).2
              eq_refl
              (reachable_step _ _ _ _ sampleState_reachable (step_serve _ _ _))
              sampleToken {| CurrentDir := "/srv/data/foo"; LastAccess := 1002 |})
    as (Hclean & _); [vm_compute; reflexivity|exact Hclean].
Defined.
